(** * Elasticsearch metadata helpers ([es_utils.py]): model and properties

    A shallow embedding of [ESMetadata] from
    [client/common_lib/cros/graphite/es_utils.py]: posting of metadata
    records ([post], [bulk_post]), query composition ([_compose_query]) and
    query execution with the scan fall-back ([execute_query],
    [_get_results_by_scan]).

    Python dictionaries are finite maps from strings to values, the remote
    engine is a record of response functions that may depend on the calls
    made so far, and every method is a computation over an explicit world
    (the caller's query object, the log, the trace of engine calls) that
    either returns or raises. *)

From stdpp Require Import gmap strings list fin_maps sorting.
From Stdlib Require Import ZArith Sorted Permutation.

Set Warnings "-register-all".
Open Scope Z_scope.

(** ** Python values *)

(** The JSON-like values that travel through the module.  Floating point
    numbers are not part of the model: numbers are integers, and the reading
    of the clock is a value supplied by the environment. *)
Inductive value : Type :=
  | VNone
  | VBool (b : bool)
  | VNum (n : Z)
  | VStr (s : string)
  | VList (l : list value)
  | VDict (d : gmap string value).

Abbreviation dict := (gmap string value).

(** Exceptions the module raises itself or lets through. *)
Inductive exn : Type :=
  | EsUtilException (msg : string) (args : list value)
  | ElasticsearchException (msg : string)
  | SocketError (msg : string)
  | KeyError (key : value)
  | IndexError
  | TypeError
  | AttributeError
  | ZeroDivisionError.

Inductive outcome (A : Type) : Type :=
  | Ret (a : A)
  | Raise (e : exn).
Arguments Ret {A} a.
Arguments Raise {A} e.

(** [except elasticsearch.ElasticsearchException] *)
Definition is_ElasticsearchException (e : exn) : bool :=
  match e with ElasticsearchException _ => true | _ => false end.

(** [except socket.error] *)
Definition is_socket_error (e : exn) : bool :=
  match e with SocketError _ => true | _ => false end.

(** Truth value of an object, as tested by [if x:] and [not x]. *)
Definition truthy (v : value) : bool :=
  match v with
  | VNone => false
  | VBool b => b
  | VNum n => negb (n =? 0)
  | VStr s => negb (String.eqb s "")
  | VList l => match l with [] => false | _ => true end
  | VDict d => negb (Nat.eqb (size d) 0)
  end.

Definition is_None (v : value) : bool :=
  match v with VNone => true | _ => false end.

(** [k in d] *)
Definition has_key (k : string) (d : dict) : bool :=
  match d !! k with Some _ => true | None => false end.

(** [v == n] for an integer constant [n]; [True] and [False] count as 1
    and 0. *)
Definition eq_num (v : value) (n : Z) : bool :=
  match v with
  | VNum m => m =? n
  | VBool b => (if b then 1 else 0) =? n
  | _ => false
  end.

(** [v == s] for a string constant [s]. *)
Definition eq_str (v : value) (s : string) : bool :=
  match v with VStr t => String.eqb t s | _ => false end.

(** [len(v)] *)
Definition py_len (v : value) : outcome Z :=
  match v with
  | VStr s => Ret (Z.of_nat (String.length s))
  | VList l => Ret (Z.of_nat (length l))
  | VDict d => Ret (Z.of_nat (size d))
  | _ => Raise TypeError
  end.

(** [v[0]]: a dictionary of this model has string keys only, so the integer
    key 0 is never found in it. *)
Definition py_item0 (v : value) : outcome value :=
  match v with
  | VList (x :: _) => Ret x
  | VList [] => Raise IndexError
  | VStr (String c _) => Ret (VStr (String c ""))
  | VStr EmptyString => Raise IndexError
  | VDict _ => Raise (KeyError (VNum 0))
  | _ => Raise TypeError
  end.

(** [v.keys()] and [v.values()].  Python 2 leaves the order of a dictionary
    with several entries to the hash table; the model takes the order of
    [map_to_list], the same for both, as Python guarantees. *)
Definition py_keys (v : value) : outcome (list string) :=
  match v with
  | VDict d => Ret (map_to_list d).*1
  | _ => Raise AttributeError
  end.

Definition py_values (v : value) : outcome (list value) :=
  match v with
  | VDict d => Ret (map_to_list d).*2
  | _ => Raise AttributeError
  end.

(** [l[0]] on a list produced by [keys()] or [values()]. *)
Definition list_item0 {A} (l : list A) : outcome A :=
  match l with x :: _ => Ret x | [] => Raise IndexError end.

(** ** Module constants *)

Definition DEFAULT_TIMEOUT : Z := 30.
Definition DEFAULT_RESULT_SIZE : Z := 10 ^ 4.
Definition DEFAULT_SCROLL_SIZE : Z := 5 * 10 ^ 4.

(** ** The engine and the world *)

(** One matched record as the engine returns it: a dictionary with the
    optional entries ['fields'] (a projection, every field a list) and
    ['_source'] (the stored record); [hit_meta] holds the entries the module
    never reads (['_index'], ['_type'], ['_id'], ['_score']). *)
Record hit : Type := {
  hit_fields : option (gmap string (list value));
  hit_source : option dict;
  hit_meta : dict;
}.

(** The part of a search response the module reads:
    [result['hits']['total']] and [result['hits']['hits']]. *)
Record search_result : Type := {
  total : Z;
  hits : list hit;
}.

(** [QueryResult = collections.namedtuple('QueryResult', ['total', 'hits'])] *)
Record QueryResult : Type := {
  qr_total : Z;
  qr_hits : list dict;
}.

(** Calls that leave the process. *)
Inductive call : Type :=
  | CExists (idx : string)
  | CSearch (idx : string) (body : dict)
  | CScan (idx : string) (query : dict) (size : Z)
  | CIndex (idx : string) (doc_type : value) (body : dict)
  | CBulk (actions : list dict)
  | CSendto (message : string) (hst : string) (prt : Z).

(** The collaborators.  Each response may depend on the calls made before
    it.  A scan is a generator: it yields hits and may then fail.
    [json_dumps] is [json.dumps(_, separators=(', ', ' : '))];
    [time_time n] is the [n]-th reading of [time.time()]. *)
Record engine : Type := {
  es_exists : list call → string → outcome bool;
  es_search : list call → string → dict → outcome search_result;
  es_scan : list call → string → dict → Z → list hit * option exn;
  es_index : list call → string → value → dict → outcome unit;
  es_bulk : list call → list dict → outcome unit;
  sock_sendto : list call → string → string → Z → outcome unit;
  json_dumps : value → string;
  time_time : nat → value;
}.

Inductive level : Type := ERROR | WARNING | DEBUG.

Inductive log_msg : Type :=
  | MsgExn (e : exn)
  | MsgIndexMissing (idx hst : string) (prt : Z)
  | MsgScroll (total_match : Z) (return_count : nat) (size : value)
  | MsgDownloaded (nhits : nat) (total_match : Z)
  | MsgHitsFound (nhits : nat)
  | MsgSortRule (sort : value).

(** What a run can change: the dictionary object the caller passed as
    [query] (execute_query and _get_results_by_scan work on that one
    object), the log, the trace of engine calls (oldest first) and the
    number of clock readings. *)
Record world : Type := {
  w_query : dict;
  w_log : list (level * log_msg);
  w_calls : list call;
  w_ticks : nat;
}.

(** ** Computations *)

Definition M (A : Type) : Type := world → outcome A * world.

Definition raise {A} (e : exn) : M A := fun w => (Raise e, w).
Definition lift {A} (o : outcome A) : M A := fun w => (o, w).

#[global] Instance M_mret : MRet M := fun A a w => (Ret a, w).
#[global] Instance M_bind : MBind M := fun A B k m w =>
  match m w with
  | (Ret a, w') => k a w'
  | (Raise e, w') => (Raise e, w')
  end.

(** [try: body except <catches> as e: handler e] *)
Definition try_except {A} (body : M A) (catches : exn → bool)
    (handler : exn → M A) : M A :=
  fun w => match body w with
           | (Raise e, w') => if catches e then handler e w' else (Raise e, w')
           | r => r
           end.

Definition add_log (entry : level * log_msg) (w : world) : world :=
  {| w_query := w_query w; w_log := w_log w ++ [entry];
     w_calls := w_calls w; w_ticks := w_ticks w |}.

Definition add_call (c : call) (w : world) : world :=
  {| w_query := w_query w; w_log := w_log w;
     w_calls := w_calls w ++ [c]; w_ticks := w_ticks w |}.

Definition set_query (q : dict) (w : world) : world :=
  {| w_query := q; w_log := w_log w;
     w_calls := w_calls w; w_ticks := w_ticks w |}.

Definition tick (w : world) : world :=
  {| w_query := w_query w; w_log := w_log w;
     w_calls := w_calls w; w_ticks := S (w_ticks w) |}.

Definition logging (l : level) (m : log_msg) : M unit :=
  fun w => (Ret tt, add_log (l, m) w).

Definition record_call (c : call) : M unit :=
  fun w => (Ret tt, add_call c w).

Definition get_query : M dict := fun w => (Ret (w_query w), w).

Definition put_query (q : dict) : M unit :=
  fun w => (Ret tt, set_query q w).

(** [query[k] = v] *)
Definition query_setitem (k : string) (v : value) : M unit :=
  q ← get_query; put_query (<[k:=v]> q).

(** [del query[k]] *)
Definition query_delitem (k : string) : M unit :=
  q ← get_query;
  if has_key k q then put_query (delete k q) else raise (KeyError (VStr k)).

Definition newline : string := String (Ascii.ascii_of_nat 10) "".

(** ** ESMetadata *)

Record ESMetadata : Type := {
  use_http : bool;
  host : string;
  port : Z;
  index : string;
  udp_port : Z;
  timeout : Z;
}.

Section Methods.

Context (E : engine) (self : ESMetadata).

(** The engine calls, each recorded in the trace.  The [es] property only
    builds the client object on first use and contacts nobody. *)
Definition time_now : M value :=
  fun w => (Ret (time_time E (w_ticks w)), tick w).

Definition indices_exists : M bool :=
  fun w => (record_call (CExists (index self)) ;; lift (es_exists E (w_calls w) (index self))) w.

Definition search (body : dict) : M search_result :=
  fun w => (record_call (CSearch (index self) body) ;;
            lift (es_search E (w_calls w) (index self) body)) w.

Definition scan (query : dict) (size : Z) : M (list hit * option exn) :=
  fun w => (record_call (CScan (index self) query size) ;;
            mret (es_scan E (w_calls w) (index self) query size)) w.

Definition es_index_call (type_str : value) (body : dict) : M unit :=
  fun w => (record_call (CIndex (index self) type_str body) ;;
            lift (es_index E (w_calls w) (index self) type_str body)) w.

Definition helpers_bulk (actions : list dict) : M unit :=
  fun w => (record_call (CBulk actions) ;;
            lift (es_bulk E (w_calls w) actions)) w.

Definition sendto (message : string) : M unit :=
  fun w => (record_call (CSendto message (host self) (udp_port self)) ;;
            lift (sock_sendto E (w_calls w) message (host self) (udp_port self))) w.

(** *** Posting *)

Definition _send_data_http (type_str : value) (metadata : dict) : M unit :=
  try_except (es_index_call type_str metadata)
    is_ElasticsearchException
    (fun e => logging ERROR (MsgExn e)).

Definition _send_data_udp (type_str : value) (metadata : dict) : M unit :=
  try_except
    (let message :=
       json_dumps E
         (VDict {[ "index" :=
                   VDict (<["_index" := VStr (index self)]>
                            {[ "_type" := type_str ]}) ]}) in
     let message := message +:+ newline in
     let message := message +:+ json_dumps E (VDict metadata) in
     let message := message +:+ newline in
     sendto message)
    is_socket_error
    (fun e => logging WARNING (MsgExn e)).

Definition post (type_str : value) (metadata : dict)
    (log_time_recorded : bool) (kwargs : dict) : M bool :=
  if negb (truthy (VDict metadata)) then mret true
  else
    let metadata := kwargs ∪ metadata in
    let '(type_str, metadata) :=
      match metadata !! "_type" with
      | Some t => (t, delete "_type" metadata)
      | None => (type_str, metadata)
      end in
    metadata ← (if log_time_recorded
                then (t ← time_now; mret (<["time_recorded" := t]> metadata))
                else mret metadata);
    try_except
      ((if use_http self
        then _send_data_http type_str metadata
        else _send_data_udp type_str metadata) ;;
       mret true)
      is_ElasticsearchException
      (fun e => logging ERROR (MsgExn e) ;; mret false).

(** The loop of [bulk_post] that builds [actions]. *)
Fixpoint bulk_actions (data_list : list dict) (log_time_recorded : bool)
    (kwargs : dict) : M (list dict) :=
  match data_list with
  | [] => mret []
  | metadata :: rest =>
      let metadata := kwargs ∪ metadata in
      metadata ← (if log_time_recorded && negb (has_key "time_recorded" metadata)
                  then (t ← time_now; mret (<["time_recorded" := t]> metadata))
                  else mret metadata);
      let metadata := <["_index" := VStr (index self)]> metadata in
      actions ← bulk_actions rest log_time_recorded kwargs;
      mret (metadata :: actions)
  end.

Definition bulk_post (data_list : list dict) (log_time_recorded : bool)
    (kwargs : dict) : M bool :=
  match data_list with
  | [] => mret true
  | _ =>
      actions ← bulk_actions data_list log_time_recorded kwargs;
      try_except
        (helpers_bulk actions ;; mret true)
        is_ElasticsearchException
        (fun e => logging ERROR (MsgExn e) ;; mret false)
  end.

(** *** Composing a query *)

(** [[{kind: {k: v}} for k, v in constraints if k]] *)
Fixpoint clause_list (kind : string) (constraints : list (string * value))
    : list value :=
  match constraints with
  | [] => []
  | (k, v) :: rest =>
      if truthy (VStr k)
      then VDict {[ kind := VDict {[ k := v ]} ]} :: clause_list kind rest
      else clause_list kind rest
  end.

(** The loop over [range_constraints]. *)
Fixpoint range_clauses (range_constraints : list (string * value * value))
    : list value :=
  match range_constraints with
  | [] => []
  | (key, low, high) :: rest =>
      if is_None low && is_None high then range_clauses rest
      else
        let temp_dict : dict := ∅ in
        let temp_dict :=
          if negb (is_None low) then <["gte" := low]> temp_dict
          else temp_dict in
        let temp_dict :=
          if negb (is_None high) then <["lte" := high]> temp_dict
          else temp_dict in
        VDict {[ "range" := VDict {[ key := VDict temp_dict ]} ]}
          :: range_clauses rest
  end.

Definition _compose_query (equality_constraints : list (string * value))
    (fields_returned : value)
    (range_constraints : list (string * value * value))
    (size : value) (sort_specs : value)
    (regex_constraints batch_constraints : list (string * value))
    : outcome dict :=
  match equality_constraints, range_constraints with
  | [], [] =>
      Raise (EsUtilException "No range or equality constraints specified." [])
  | _, _ =>
      let range_list := range_clauses range_constraints in
      let eq_list := clause_list "term" equality_constraints in
      let batch_list := clause_list "terms" batch_constraints in
      let regex_list := clause_list "regexp" regex_constraints in
      let constraints := eq_list ++ batch_list ++ range_list ++ regex_list in
      let query : dict :=
        {[ "query" :=
           VDict {[ "bool" := VDict {[ "must" := VList constraints ]} ]} ]} in
      let query :=
        if truthy fields_returned then <["fields" := fields_returned]> query
        else query in
      let query := <["size" := size]> query in
      let query :=
        if truthy sort_specs then <["sort" := sort_specs]> query
        else query in
      Ret query
  end.

(** *** Sorting hits *)

(** Python 2 orders any two objects; across types and on dictionaries the
    language only promises an order that is consistent.  [py_le a b] stands
    for [not (b < a)]. *)
Class Py2Order := py_le : value → value → bool.

Class Py2OrderLaws `{Py2Order} : Prop := {
  py_le_total : ∀ a b, py_le a b = true ∨ py_le b a = true;
  py_le_trans : ∀ a b c, py_le a b = true → py_le b c = true → py_le a c = true;
}.

Context `{Py2Order}.

(** The key function is applied to every element, in order, before any
    comparison is made. *)
Fixpoint decorate (key : hit → outcome value) (l : list hit)
    : outcome (list (value * hit)) :=
  match l with
  | [] => Ret []
  | h :: rest =>
      match key h with
      | Raise e => Raise e
      | Ret k =>
          match decorate key rest with
          | Raise e => Raise e
          | Ret ks => Ret ((k, h) :: ks)
          end
      end
  end.

Fixpoint insert_by_key (x : value * hit) (l : list (value * hit))
    : list (value * hit) :=
  match l with
  | [] => [x]
  | y :: rest =>
      if py_le x.1 y.1 then x :: y :: rest else y :: insert_by_key x rest
  end.

(** A stable ascending sort; under a consistent order every stable sort
    returns this list, the list sort of CPython included. *)
Definition stable_sort (l : list (value * hit)) : list (value * hit) :=
  foldr insert_by_key [] l.

(** [sorted(l, key=key, reverse=reverse)]: with [reverse] the list is
    reversed, sorted ascending and reversed again. *)
Definition sorted (l : list hit) (key : hit → outcome value) (reverse : bool)
    : outcome (list hit) :=
  match decorate key l with
  | Raise e => Raise e
  | Ret ks =>
      Ret (if reverse then (list.reverse (stable_sort (list.reverse ks))).*2
           else (stable_sort ks).*2)
  end.

(** [lambda hit: (hit['_source'][sort_key] if '_source' in hit else
                  hit['fields'][sort_key][0])] *)
Definition sort_value (sort_key : string) (h : hit) : outcome value :=
  match hit_source h with
  | Some source =>
      match source !! sort_key with
      | Some v => Ret v
      | None => Raise (KeyError (VStr sort_key))
      end
  | None =>
      match hit_fields h with
      | Some fields =>
          match fields !! sort_key with
          | Some (v :: _) => Ret v
          | Some [] => Raise IndexError
          | None => Raise (KeyError (VStr sort_key))
          end
      | None => Raise (KeyError (VStr "fields"))
      end
  end.

(** *** Running a query *)

(** [100 * float(nhits) / total_match > next_mark] for a non-zero
    [total_match], over the rationals.  The test only decides which debug
    lines are written.  It is the test of the code while the number of hits
    does not exceed the count and the count stays below 2^46, where rounding
    cannot move the quotient across a mark; a count of 2^1024 or more, which
    Python cannot convert to a float, is outside the model. *)
Definition percent_above (nhits : nat) (total_match next_mark : Z) : bool :=
  if 0 <? total_match then next_mark * total_match <? 100 * Z.of_nat nhits
  else 100 * Z.of_nat nhits <? next_mark * total_match.

(** The loop [for hit in scroll]. *)
Fixpoint drain (scroll : list hit) (total_match : Z) (hits : list hit)
    (next_mark : Z) : M (list hit) :=
  match scroll with
  | [] => mret hits
  | h :: rest =>
      let hits := hits ++ [h] in
      if total_match =? 0 then raise ZeroDivisionError
      else if percent_above (length hits) total_match next_mark
      then logging DEBUG (MsgDownloaded (length hits) total_match);;
           drain rest total_match hits (next_mark + 5)
      else drain rest total_match hits next_mark
  end.

(** The block of [_get_results_by_scan] that takes the sort out of the
    query: it returns the removed sort, or [None] when there was none. *)
Definition strip_sort : M value :=
  query ← get_query;
  match query !! "sort" with
  | Some sort =>
      n ← lift (py_len sort);
      if 1 <? n
      then raise (EsUtilException
             "_get_results_by_scan does not support sort with more than one key: %s"
             [sort])
      else query_delitem "sort";; mret sort
  | None => mret VNone
  end.

(** The closing block [if sort: ...] of [_get_results_by_scan]. *)
Definition resort (sort : value) (hits : list hit) : M (list hit) :=
  if truthy sort then
    logging DEBUG (MsgSortRule sort);;
    first ← lift (py_item0 sort);
    keys ← lift (py_keys first);
    sort_key ← lift (list_item0 keys);
    values ← lift (py_values first);
    direction ← lift (list_item0 values);
    let is_desc := eq_str direction "desc" in
    lift (sorted hits (sort_value sort_key) is_desc)
  else mret hits.

(** [_get_results_by_scan(query, total_match)]; the argument [total_match]
    is always replaced by the count of a fresh search ([if True or ...]). *)
Definition _get_results_by_scan (total_match : Z) : M (list hit) :=
  query_setitem "size" (VNum 1);;
  query ← get_query;
  result ← search query;
  let total_match := total result in
  sort ← strip_sort;
  query_delitem "size";;
  query ← get_query;
  scroll ← scan query DEFAULT_SCROLL_SIZE;
  hits ← drain scroll.1 total_match [] 0;
  match scroll.2 with Some e => raise e | None => mret tt end;;
  logging DEBUG (MsgHitsFound (length hits));;
  resort sort hits.

(** The body of the loop [for hit in hits] of [execute_query]. *)
Definition convert (h : hit) : outcome dict :=
  match hit_fields h with
  | Some fields =>
      Ret ((λ v, match v with [x] => x | _ => VList v end) <$> fields)
  | None =>
      match hit_source h with
      | Some source => Ret source
      | None => Raise (KeyError (VStr "_source"))
      end
  end.

Fixpoint convert_all (l : list hit) : outcome (list dict) :=
  match l with
  | [] => Ret []
  | h :: rest =>
      match convert h with
      | Raise e => Raise e
      | Ret c =>
          match convert_all rest with
          | Raise e => Raise e
          | Ret cs => Ret (c :: cs)
          end
      end
  end.

(** The test that sends [execute_query] to the scan. *)
Definition scroll_needed (query : dict) (result : search_result) : bool :=
  let size := default (VNum 1) (query !! "size") in
  let need_scroll := has_key "size" query && eq_num size DEFAULT_RESULT_SIZE in
  let return_count := Z.of_nat (length (hits result)) in
  let total_match := total result in
  (return_count <? total_match) && need_scroll.

(** [execute_query(query)], on the query object held by the world; [None]
    is the Python [None]. *)
Definition execute_query : M (option QueryResult) :=
  found ← indices_exists;
  if negb found then
    logging ERROR (MsgIndexMissing (index self) (host self) (port self));;
    mret None
  else
    query ← get_query;
    result ← search query;
    let size := default (VNum 1) (query !! "size") in
    let return_count := length (hits result) in
    let total_match := total result in
    hits ← (if scroll_needed query result
            then logging WARNING (MsgScroll total_match return_count size);;
                 _get_results_by_scan total_match
            else mret (hits result));
    converted ← lift (convert_all hits);
    mret (Some {| qr_total := total_match; qr_hits := converted |}).

End Methods.

Arguments execute_query E self {_} w.
Arguments _get_results_by_scan E self {_} total_match w.
Arguments resort {_} sort hits w.

Section QueryMethod.

Context (E : engine) (self : ESMetadata) `{Py2Order}.

(** The method [query], with the arguments of [_compose_query]: the
    composed dictionary is a new object, and it is the query object that
    [execute_query] then works on. *)
Definition query (equality_constraints : list (string * value))
    (fields_returned : value)
    (range_constraints : list (string * value * value))
    (size : value) (sort_specs : value)
    (regex_constraints batch_constraints : list (string * value))
    : M (option QueryResult) :=
  composed ← lift (_compose_query equality_constraints fields_returned
                     range_constraints size sort_specs regex_constraints
                     batch_constraints);
  put_query composed;;
  execute_query E self.

End QueryMethod.

(** ** Vocabulary of the properties *)

(** [query['query']['bool']['must']] *)
Definition must_clauses (query : dict) : option (list value) :=
  match query !! "query" with
  | Some (VDict q) =>
      match q !! "bool" with
      | Some (VDict b) =>
          match b !! "must" with
          | Some (VList clauses) => Some clauses
          | _ => None
          end
      | _ => None
      end
  | _ => None
  end.

Definition count_where {A} (p : A → bool) (l : list A) : nat :=
  length (List.filter p l).

(** A constraint whose field name passes the test [if k]. *)
Definition named (c : string * value) : bool := truthy (VStr c.1).

(** A range constraint with at least one bound. *)
Definition bounded (c : string * value * value) : bool :=
  negb (is_None c.1.2 && is_None c.2).

(** The count the specification gives for the must-group: every equality,
    batch and regex constraint, and every range constraint that has a
    bound. *)
Definition nontrivial_count (equality : list (string * value))
    (batch : list (string * value)) (range : list (string * value * value))
    (regex : list (string * value)) : nat :=
  length equality + length batch + count_where bounded range + length regex.

(** The count the code produces: constraints with an empty field name are
    left out of the equality, batch and regex lists. *)
Definition clause_count (equality : list (string * value))
    (batch : list (string * value)) (range : list (string * value * value))
    (regex : list (string * value)) : nat :=
  count_where named equality + count_where named batch
  + count_where bounded range + count_where named regex.

(** The specified property of [_compose_query] at one input. *)
Definition must_count_as_specified (equality : list (string * value))
    (fields_returned : value) (range : list (string * value * value))
    (size sort_specs : value) (regex batch : list (string * value)) : Prop :=
  (equality ≠ [] ∨ range ≠ []) →
  ∃ query clauses,
    _compose_query equality fields_returned range size sort_specs regex batch
      = Ret query
    ∧ must_clauses query = Some clauses
    ∧ length clauses = nontrivial_count equality batch range regex.

(** The sort value of a hit as the specification words it: read from the
    stored record ['_source'] when the hit has one, and otherwise the first
    element of the projection of the key under ['fields']. *)
Definition stored_sort_value (sort_key : string) (h : hit) : option value :=
  match hit_source h with
  | Some source => source !! sort_key
  | None => fields ← hit_fields h; projection ← fields !! sort_key; head projection
  end.

(** [h1] does not come after [h2] in the order of their sort values. *)
Definition key_le `{Py2Order} (sort_key : string) (h1 h2 : hit) : Prop :=
  ∃ v1 v2, stored_sort_value sort_key h1 = Some v1
           ∧ stored_sort_value sort_key h2 = Some v2
           ∧ py_le v1 v2 = true.

(** The order in which [sorted] leaves the hits. *)
Definition in_order `{Py2Order} (sort_key : string) (is_desc : bool)
    : relation hit :=
  if is_desc then flip (key_le sort_key) else key_le sort_key.

(** The same order on hits paired with their sort values, as [sorted]
    compares them. *)
Definition keyed_le `{Py2Order} (x y : value * hit) : Prop :=
  py_le x.1 y.1 = true.

(** A computation that leaves the query object, the trace and the clock as
    they were: it may only write to the log. *)
Definition quiet {A} (m : M A) : Prop :=
  ∀ w, w_query (m w).2 = w_query w ∧ w_calls (m w).2 = w_calls w
       ∧ w_ticks (m w).2 = w_ticks w.

Definition is_scan (c : call) : bool :=
  match c with CScan _ _ _ => true | _ => false end.

(** The record [post] sends and the type it sends it under. *)
Definition posted_type (type_str : value) (metadata kwargs : dict) : value :=
  default type_str ((kwargs ∪ metadata) !! "_type").

Definition posted_record (metadata kwargs : dict) (log_time_recorded : bool)
    (now : value) : dict :=
  let record := delete "_type" (kwargs ∪ metadata) in
  if log_time_recorded then <["time_recorded" := now]> record else record.

(** Python 2's order on [None], numbers and strings: [None] first, then the
    numbers ([False] and [True] as 0 and 1) by value, then dictionaries,
    lists and strings ('dict' < 'list' < 'str'), strings by their
    characters.  Two lists, or two dictionaries, are left unordered among
    themselves here (each is below the other), so the instance follows Python
    where the sort values are scalars. *)
Definition type_rank (v : value) : Z :=
  match v with
  | VNone => 0
  | VBool _ | VNum _ => 1
  | VDict _ => 2
  | VList _ => 3
  | VStr _ => 4
  end.

Definition number (v : value) : Z :=
  match v with
  | VBool b => if b then 1 else 0
  | VNum n => n
  | _ => 0
  end.

Definition scalar_le (a b : value) : bool :=
  match a, b with
  | VStr s, VStr t => String.leb s t
  | _, _ =>
      if type_rank a =? type_rank b then number a <=? number b
      else type_rank a <? type_rank b
  end.

#[export] Instance scalar_order : Py2Order := scalar_le.

(** What one converted hit holds: with a projection, every projected field,
    a list of one element as that element and any other list as it is (the
    stored record is not looked at); without a projection, the stored
    record. *)
Definition converted_from (h : hit) (c : dict) : Prop :=
  match hit_fields h with
  | Some fields =>
      ∀ k, c !! k = match fields !! k with
                    | Some [x] => Some x
                    | Some l => Some (VList l)
                    | None => None
                    end
  | None => hit_source h = Some c
  end.

Section Vocabulary.

Context (E : engine) (self : ESMetadata) `{Py2Order}.

(** The world once the existence check and the first search are made. *)
Definition first_page (w : world) : world :=
  add_call (CSearch (index self) (w_query w))
    (add_call (CExists (index self)) w).

(** The query as [_get_results_by_scan] searches it again, the world after
    that search, and the query that is handed to the scan. *)
Definition counting_query (q : dict) : dict := <["size" := VNum 1]> q.

Definition recount (w : world) : world :=
  add_call (CSearch (index self) (counting_query (w_query w)))
    (set_query (counting_query (w_query w)) w).

Definition scan_query (q : dict) : dict := delete "size" (delete "sort" q).

Definition scanning (w : world) : world :=
  add_call (CScan (index self) (scan_query (w_query w)) DEFAULT_SCROLL_SIZE)
    (set_query (scan_query (w_query w)) (recount w)).

(** What [execute_query] returns from a list of hits. *)
Definition wrap (total_match : Z) (o : outcome (list hit))
    : outcome (option QueryResult) :=
  match o with
  | Ret hs =>
      match convert_all hs with
      | Ret converted =>
          Ret (Some {| qr_total := total_match; qr_hits := converted |})
      | Raise e => Raise e
      end
  | Raise e => Raise e
  end.

(** The sort specification lets the scan go ahead. *)
Definition sort_accepted (q : dict) : Prop :=
  match q !! "sort" with
  | Some sort => ∃ n, py_len sort = Ret n ∧ n ≤ 1
  | None => True
  end.

(** [execute_query] enters [_get_results_by_scan]: the collection exists,
    the first search returns and its result asks for the scan. *)
Definition takes_scroll_path (w : world) : Prop :=
  es_exists E (w_calls w) (index self) = Ret true
  ∧ ∃ r, es_search E (w_calls w ++ [CExists (index self)]) (index self)
           (w_query w) = Ret r
         ∧ scroll_needed (w_query w) r = true.

(** The run went on to search a second time, for the count, which is the
    first thing [_get_results_by_scan] does. *)
Definition searched_again (w w' : world) : Prop :=
  ∃ rest, w_calls w'
          = w_calls (first_page w)
            ++ CSearch (index self) (counting_query (w_query w)) :: rest.

(** The world in which [_get_results_by_scan] is entered from
    [execute_query] when the first search returned [r]. *)
Definition scroll_entry (w : world) (r : search_result) : world :=
  add_log (WARNING,
           MsgScroll (total r) (length (hits r))
             (default (VNum 1) (w_query w !! "size")))
    (first_page w).

(** What the specification says of the query object: on the scroll path it
    ends without 'size' and without 'sort', on any other path it ends as it
    was. *)
Definition query_effect_as_specified (w : world) : Prop :=
  let w' := (execute_query E self w).2 in
  (takes_scroll_path w →
   w_query w' !! "size" = None ∧ w_query w' !! "sort" = None)
  ∧ (¬ takes_scroll_path w → w_query w' = w_query w).

(** What [bulk_post] makes of one record: the extra fields are merged in,
    'time_recorded' is stamped only where it is missing, and '_index' is
    set. *)
Definition action_of (kwargs : dict) (metadata action : dict) : Prop :=
  action !! "_index" = Some (VStr (index self))
  ∧ (∀ k, k ≠ "_index" → k ≠ "time_recorded" →
          action !! k = (kwargs ∪ metadata) !! k)
  ∧ (∀ v, (kwargs ∪ metadata) !! "time_recorded" = Some v →
          action !! "time_recorded" = Some v).

(** The number of records of a list that come without 'time_recorded', the
    extra fields counted in. *)
Definition unstamped (kwargs : dict) (data_list : list dict) : nat :=
  count_where
    (λ metadata, negb (has_key "time_recorded" (kwargs ∪ metadata))) data_list.

(** The 'time_recorded' of the bulk action made of the record at position
    [i] of the list: the caller's value when there is one; otherwise, when
    stamping is on, the reading of the clock taken for this record, which
    follows the readings taken for the records before it, and nothing when
    stamping is off. *)
Definition action_time (log_time_recorded : bool) (kwargs : dict) (w : world)
    (data_list : list dict) (i : nat) (metadata : dict) : option value :=
  match (kwargs ∪ metadata) !! "time_recorded" with
  | Some v => Some v
  | None =>
      if log_time_recorded
      then Some (time_time E (w_ticks w + unstamped kwargs (take i data_list))%nat)
      else None
  end.

End Vocabulary.

(** ** A sample deployment *)

Definition server : ESMetadata :=
  {| use_http := true; host := "localhost"; port := 9200;
     index := "metadata"; udp_port := 9700; timeout := DEFAULT_TIMEOUT |}.

Definition udp_server : ESMetadata :=
  {| use_http := false; host := "localhost"; port := 9200;
     index := "metadata"; udp_port := 9700; timeout := DEFAULT_TIMEOUT |}.

Definition stored (t : Z) (hostname : string) : hit :=
  {| hit_fields := None;
     hit_source := Some (<["time_recorded" := VNum t]>
                           {[ "hostname" := VStr hostname ]});
     hit_meta := {[ "_type" := VStr "host_history" ]} |}.

Definition projected (t : Z) : hit :=
  {| hit_fields := Some {[ "time_recorded" := [VNum t] ]};
     hit_source := None;
     hit_meta := {[ "_type" := VStr "host_history" ]} |}.

Definition store : list hit :=
  [stored 100 "a"; stored 300 "b"; projected 250; stored 200 "c"].

(** An engine that holds [store] under the index "metadata", answers a
    search with at most two hits, and accepts whatever is posted. *)
Definition paged_engine : engine :=
  {| es_exists := λ _ idx, Ret (String.eqb idx "metadata");
     es_search := λ _ _ body,
       Ret {| total := 4;
              hits := match body !! "size" with
                      | Some (VNum n) => take (Z.to_nat (Z.min n 2)) store
                      | _ => take 2 store
                      end |};
     es_scan := λ _ _ _ _, (store, None);
     es_index := λ _ _ _ _, Ret tt;
     es_bulk := λ _ _, Ret tt;
     sock_sendto := λ _ _ _ _, Ret tt;
     json_dumps := λ _, "{}";
     time_time := λ n, VNum (1405628341 + Z.of_nat n) |}.

(** An engine that cannot be reached. *)
Definition unreachable_engine : engine :=
  {| es_exists := λ _ _, Raise (ElasticsearchException "ConnectionError");
     es_search := λ _ _ _, Raise (ElasticsearchException "ConnectionError");
     es_scan := λ _ _ _ _, ([], Some (ElasticsearchException "ConnectionError"));
     es_index := λ _ _ _ _, Raise (ElasticsearchException "ConnectionError");
     es_bulk := λ _ _, Raise (ElasticsearchException "ConnectionError");
     sock_sendto := λ _ _ _ _, Raise (SocketError "Network is unreachable");
     json_dumps := λ _, "{}";
     time_time := λ n, VNum (1405628341 + Z.of_nat n) |}.

Definition start (query : dict) : world :=
  {| w_query := query; w_log := []; w_calls := []; w_ticks := 0 |}.

Definition match_all : dict := {[ "query" := VDict {[ "match_all" := VDict ∅ ]} ]}.

(** Everything, newest first. *)
Definition newest_first : dict :=
  <["size" := VNum DEFAULT_RESULT_SIZE]>
    (<["sort" := VList [VDict {[ "time_recorded" := VStr "desc" ]}]]> match_all).

(** Everything, by host and then by time. *)
Definition by_host_then_time : dict :=
  <["size" := VNum DEFAULT_RESULT_SIZE]>
    (<["sort" := VList [VDict {[ "hostname" := VStr "asc" ]};
                        VDict {[ "time_recorded" := VStr "asc" ]}]]> match_all).

(** The first twenty matches. *)
Definition first_twenty : dict := <["size" := VNum 20]> match_all.

(** A record that names its own type. *)
Definition typed_record : dict :=
  <["_type" := VStr "job_history"]> {[ "job_id" := VNum 20 ]}.

(** The record of the module's introduction, with its own 'time_recorded'. *)
Definition timed_record : dict :=
  <["time_recorded" := VNum 100006]> {[ "host_id" := VNum 1 ]}.

(** Everything, in whatever order the engine gives it. *)
Definition everything : dict := <["size" := VNum DEFAULT_RESULT_SIZE]> match_all.


(** Everything, by host name from the last to the first. *)
Definition hosts_descending : dict :=
  <["size" := VNum DEFAULT_RESULT_SIZE]>
    (<["sort" := VList [VDict {[ "hostname" := VStr "desc" ]}]]> match_all).

(** A hit that carries neither a projection nor a stored record. *)
Definition bare_hit : hit :=
  {| hit_fields := None; hit_source := None;
     hit_meta := {[ "_type" := VStr "host_history" ]} |}.

(** An engine like [paged_engine] whose searches answer with one bare hit. *)
Definition bare_engine : engine :=
  {| es_exists := es_exists paged_engine;
     es_search := λ _ _ _, Ret {| total := 1; hits := [bare_hit] |};
     es_scan := es_scan paged_engine;
     es_index := es_index paged_engine;
     es_bulk := es_bulk paged_engine;
     sock_sendto := sock_sendto paged_engine;
     json_dumps := json_dumps paged_engine;
     time_time := time_time paged_engine |}.

(** An engine like [paged_engine] whose search for the count (size 1) finds
    nothing while the scan still yields the stored records. *)
Definition stale_count_engine : engine :=
  {| es_exists := es_exists paged_engine;
     es_search := λ calls idx body,
       match body !! "size" with
       | Some (VNum 1) => Ret {| total := 0; hits := [] |}
       | _ => es_search paged_engine calls idx body
       end;
     es_scan := es_scan paged_engine;
     es_index := es_index paged_engine;
     es_bulk := es_bulk paged_engine;
     sock_sendto := sock_sendto paged_engine;
     json_dumps := json_dumps paged_engine;
     time_time := time_time paged_engine |}.

(** An engine like [paged_engine] whose scan breaks off after two hits. *)
Definition dropping_engine : engine :=
  {| es_exists := es_exists paged_engine;
     es_search := es_search paged_engine;
     es_scan := λ _ _ _ _,
       (take 2 store, Some (ElasticsearchException "ConnectionTimeout"));
     es_index := es_index paged_engine;
     es_bulk := es_bulk paged_engine;
     sock_sendto := sock_sendto paged_engine;
     json_dumps := json_dumps paged_engine;
     time_time := time_time paged_engine |}.

(** ** Properties of [_compose_query] *)

Lemma length_clause_list kind cs :
  length (clause_list kind cs) = count_where named cs.
Proof.
  unfold count_where. induction cs as [|[k v] cs IH]; [done|].
  cbn [clause_list List.filter]. unfold named at 1. cbn [fst].
  destruct (truthy (VStr k)); cbn [length]; lia.
Qed.

Lemma length_range_clauses cs :
  length (range_clauses cs) = count_where bounded cs.
Proof.
  unfold count_where. induction cs as [|[[k lo] hi] cs IH]; [done|].
  cbn [range_clauses List.filter]. unfold bounded at 1. cbn [fst snd].
  destruct (is_None lo && is_None hi); cbn [negb length]; lia.
Qed.

Lemma must_clauses_composed (constraints : list value)
    (fields_returned size sort_specs : value) :
  must_clauses
    (let query : dict :=
       {[ "query" :=
          VDict {[ "bool" := VDict {[ "must" := VList constraints ]} ]} ]} in
     let query :=
       if truthy fields_returned then <["fields" := fields_returned]> query
       else query in
     let query := <["size" := size]> query in
     if truthy sort_specs then <["sort" := sort_specs]> query else query)
  = Some constraints.
Proof.
  unfold must_clauses; simpl.
  destruct (truthy fields_returned), (truthy sort_specs);
    repeat (rewrite lookup_insert_ne by done);
    rewrite lookup_singleton_eq; rewrite !lookup_singleton_eq; done.
Qed.

Lemma compose_returns equality fields_returned range size sort_specs regex batch :
  equality ≠ [] ∨ range ≠ [] →
  ∃ query,
    _compose_query equality fields_returned range size sort_specs regex batch
      = Ret query
    ∧ must_clauses query
      = Some (clause_list "term" equality ++ clause_list "terms" batch
              ++ range_clauses range ++ clause_list "regexp" regex).
Proof.
  intros Hne. unfold _compose_query.
  destruct equality as [|e equality], range as [|r range];
    try (destruct Hne; congruence);
    (eexists; split; [reflexivity | apply must_clauses_composed]).
Qed.

(** C7.  With no equality and no range constraint [_compose_query] raises
    [EsUtilException], whatever the regex and batch constraints (and the
    other arguments) are. *)
Theorem compose_without_equality_and_range_raises
    (fields_returned size sort_specs : value)
    (regex_constraints batch_constraints : list (string * value)) :
  _compose_query [] fields_returned [] size sort_specs
    regex_constraints batch_constraints
  = Raise (EsUtilException "No range or equality constraints specified." []).
Proof. reflexivity. Qed.

(** C3, as specified, fails: one equality constraint on the empty field name
    is a constraint with a value, yet [_compose_query] drops it and the
    must-group is empty. *)
Lemma compose_empty_field_name_not_counted :
  ¬ must_count_as_specified [("", VNum 5)] VNone [] (VNum DEFAULT_RESULT_SIZE)
      VNone [] [].
Proof.
  intros Hspec. destruct Hspec as (query & clauses & Hq & Hm & Hlen).
  { left; discriminate. }
  destruct (compose_returns [("", VNum 5)] VNone [] (VNum DEFAULT_RESULT_SIZE)
              VNone [] []) as (query' & Hq' & Hm'); [left; discriminate|].
  rewrite Hq in Hq'. injection Hq' as <-. rewrite Hm in Hm'.
  injection Hm' as ->. simpl in Hlen. discriminate.
Qed.

(** C3, amended.  With at least one equality or range constraint
    [_compose_query] returns a document whose must-group has one clause for
    every equality, batch and regex constraint with a non-empty field name
    and one for every range constraint with a bound that is not [None]. *)
Theorem compose_must_clause_count equality fields_returned range size
    sort_specs regex batch :
  equality ≠ [] ∨ range ≠ [] →
  ∃ query clauses,
    _compose_query equality fields_returned range size sort_specs regex batch
      = Ret query
    ∧ must_clauses query = Some clauses
    ∧ length clauses = clause_count equality batch range regex.
Proof.
  intros Hne.
  destruct (compose_returns equality fields_returned range size sort_specs
              regex batch Hne) as (query & Hq & Hm).
  exists query; eexists; split; [exact Hq | split; [exact Hm|]].
  rewrite !length_app, !length_clause_list, length_range_clauses.
  unfold clause_count. lia.
Qed.

Lemma compose_must_clause_count_witness :
  ∃ query clauses,
    _compose_query [("host_id", VNum 5); ("", VNum 7)] VNone
      [("time_recorded", VNum 100, VNum 200); ("job_id", VNone, VNone)]
      (VNum 20) VNone [] [] = Ret query
    ∧ must_clauses query = Some clauses
    ∧ length clauses
      = clause_count [("host_id", VNum 5); ("", VNum 7)] []
          [("time_recorded", VNum 100, VNum 200); ("job_id", VNone, VNone)] [].
Proof.
  apply (compose_must_clause_count [("host_id", VNum 5); ("", VNum 7)] VNone
           [("time_recorded", VNum 100, VNum 200); ("job_id", VNone, VNone)]
           (VNum 20) VNone [] []).
  left; discriminate.
Defined.

(** ** Sorting *)

(** The key function of the code returns exactly the sort value of the
    specification, and raises where there is none. *)
Lemma sort_value_stored sort_key h v :
  sort_value sort_key h = Ret v ↔ stored_sort_value sort_key h = Some v.
Proof.
  unfold sort_value, stored_sort_value.
  destruct (hit_source h) as [source|].
  { destruct (source !! sort_key); split; intros Hv; by simplify_eq. }
  destruct (hit_fields h) as [fields|]; simpl; [|done].
  destruct (fields !! sort_key) as [[|x projection]|]; simpl;
    split; intros Hv; by simplify_eq.
Qed.

Section Sorting.

Context `{Py2OrderLaws}.

#[local] Instance keyed_le_trans : Transitive keyed_le.
Proof. intros x y z; unfold keyed_le; apply py_le_trans. Qed.

#[local] Instance flip_keyed_le_trans : Transitive (flip keyed_le).
Proof. intros x y z Hxy Hyz; unfold flip in *; by etrans. Qed.

Lemma insert_by_key_perm x l : insert_by_key x l ≡ₚ x :: l.
Proof.
  induction l as [|y l IH]; simpl; [done|].
  destruct (py_le x.1 y.1); [done|]. rewrite IH. apply perm_swap.
Qed.

Lemma insert_by_key_sorted x l :
  StronglySorted keyed_le l → StronglySorted keyed_le (insert_by_key x l).
Proof.
  induction 1 as [|y l Hl IH Hy]; simpl.
  { repeat constructor. }
  destruct (py_le x.1 y.1) eqn:Hxy.
  - constructor; [by constructor|].
    constructor; [exact Hxy|].
    eapply Forall_impl; [exact Hy|]. intros z Hz. by etrans.
  - constructor; [exact IH|].
    rewrite insert_by_key_perm. constructor; [|exact Hy].
    unfold keyed_le. destruct (py_le_total x.1 y.1); congruence.
Qed.

Lemma stable_sort_perm l : stable_sort l ≡ₚ l.
Proof.
  induction l as [|x l IH]; simpl; [done|].
  rewrite insert_by_key_perm. by rewrite IH.
Qed.

Lemma stable_sort_sorted l : StronglySorted keyed_le (stable_sort l).
Proof.
  induction l; simpl; [constructor|]. by apply insert_by_key_sorted.
Qed.

Lemma reverse_stable_sort_sorted l :
  StronglySorted (flip keyed_le) (reverse (stable_sort l)).
Proof.
  apply sorting.Sorted_StronglySorted; [apply _|].
  apply Sorted_reverse, StronglySorted_Sorted, stable_sort_sorted.
Qed.

(** [decorate] pairs every hit with its sort value, in order. *)
Lemma decorate_spec key l ks :
  decorate key l = Ret ks →
  ks.*2 = l ∧ Forall (λ x, key x.2 = Ret x.1) ks.
Proof.
  revert ks. induction l as [|h l IH]; simpl; intros ks Hd.
  { injection Hd as <-. by split. }
  destruct (key h) as [k|] eqn:Hk; [|discriminate].
  destruct (decorate key l) as [ks'|]; [|discriminate].
  injection Hd as <-. destruct (IH ks' eq_refl) as [<- Hall].
  split; [done|]. by constructor.
Qed.

Lemma decorate_returns key l :
  Forall (λ h, ∃ v, key h = Ret v) l → ∃ ks, decorate key l = Ret ks.
Proof.
  induction 1 as [|h l [v Hv] _ [ks IH]]; simpl; [by eexists|].
  rewrite Hv, IH. by eexists.
Qed.

Lemma StronglySorted_with {A} (R : relation A) (P : A → Prop) l :
  StronglySorted R l → Forall P l →
  StronglySorted (λ x y, R x y ∧ P x ∧ P y) l.
Proof.
  induction 1 as [|x l Hl IH Hx]; intros Hall; [constructor|].
  apply Forall_cons in Hall as [Px Pl]. constructor; [by apply IH|].
  rewrite Forall_forall in *. intros y Hy. split; [|split]; auto.
Qed.

(** [sorted] returns the hits rearranged, in ascending order of their sort
    values, or in descending order when [reverse] is set. *)
Lemma sorted_spec sort_key l (reverse : bool) :
  Forall (λ h, is_Some (stored_sort_value sort_key h)) l →
  ∃ l', sorted l (sort_value sort_key) reverse = Ret l'
        ∧ l' ≡ₚ l
        ∧ StronglySorted (in_order sort_key reverse) l'.
Proof.
  intros Hkeys.
  assert (Hkeys' : Forall (λ h, ∃ v, sort_value sort_key h = Ret v) l).
  { eapply Forall_impl; [exact Hkeys|]. intros h [v Hv]. exists v.
    by apply sort_value_stored. }
  destruct (decorate_returns _ _ Hkeys') as [ks Hks].
  unfold sorted. rewrite Hks. destruct (decorate_spec _ _ _ Hks) as [<- Hall].
  eexists; split; [reflexivity|].
  pose (P := λ x : value * hit, sort_value sort_key x.2 = Ret x.1).
  destruct reverse; unfold in_order.
  - assert (Hperm : list.reverse (stable_sort (list.reverse ks)) ≡ₚ ks)
      by (by rewrite reverse_Permutation, stable_sort_perm,
                     reverse_Permutation).
    split; [by rewrite Hperm|].
    apply (StronglySorted_fmap snd (λ x y, flip keyed_le x y ∧ P x ∧ P y)).
    + intros x y (Hxy & Hx & Hy). exists y.1, x.1.
      by rewrite <- !sort_value_stored.
    + apply StronglySorted_with; [apply reverse_stable_sort_sorted|].
      by rewrite Hperm.
  - split; [by rewrite stable_sort_perm|].
    apply (StronglySorted_fmap snd (λ x y, keyed_le x y ∧ P x ∧ P y)).
    + intros x y (Hxy & Hx & Hy). exists x.1, y.1.
      by rewrite <- !sort_value_stored.
    + apply StronglySorted_with; [apply stable_sort_sorted|].
      by rewrite stable_sort_perm.
Qed.

End Sorting.

(** ** Running computations *)

Ltac unfold_M :=
  unfold mbind, M_bind, mret, M_mret, lift, raise, try_except, logging,
    record_call, get_query, put_query, query_setitem, query_delitem in *.

Lemma quiet_mret {A} (a : A) : quiet (mret a).
Proof. by intros w. Qed.

Lemma quiet_lift {A} (o : outcome A) : quiet (lift o).
Proof. by intros w. Qed.

Lemma quiet_raise {A} (e : exn) : quiet (@raise A e).
Proof. by intros w. Qed.

Lemma quiet_logging l m : quiet (logging l m).
Proof. by intros w. Qed.

Lemma quiet_bind {A B} (m : M A) (k : A → M B) :
  quiet m → (∀ a, quiet (k a)) → quiet (m ≫= k).
Proof.
  intros Hm Hk w. specialize (Hm w). unfold mbind, M_bind.
  destruct (m w) as [[a|e] w1]; simpl in *; [|done].
  destruct (Hk a w1) as (-> & -> & ->). done.
Qed.

Create HintDb quiet.
#[local] Hint Resolve quiet_mret quiet_lift quiet_raise quiet_logging : quiet.

Lemma quiet_drain scroll total_match acc next_mark :
  quiet (drain scroll total_match acc next_mark).
Proof.
  revert acc next_mark. induction scroll as [|h rest IH]; intros acc mark;
    cbn [drain]; [auto with quiet|].
  destruct (total_match =? 0); [auto with quiet|].
  destruct (percent_above _ _ _); [|apply IH].
  apply quiet_bind; [auto with quiet|]. intros _. apply IH.
Qed.

Lemma quiet_resort `{Py2Order} sort hs : quiet (resort sort hs).
Proof.
  unfold resort. destruct (truthy sort); [|auto with quiet].
  repeat (apply quiet_bind; [auto with quiet|]; intros ?). auto with quiet.
Qed.

(** With a non-zero total, or nothing to read, the loop returns what the
    scan yielded, appended to what was collected before. *)
Lemma drain_returns scroll total_match acc next_mark w :
  total_match ≠ 0 ∨ scroll = [] →
  (drain scroll total_match acc next_mark w).1 = Ret (acc ++ scroll).
Proof.
  revert acc next_mark w. induction scroll as [|h rest IH];
    intros acc mark w Hok; cbn [drain].
  { by rewrite app_nil_r. }
  destruct Hok as [Hne|]; [|done].
  apply Z.eqb_neq in Hne as Hz. rewrite Hz.
  destruct (percent_above _ _ _).
  - unfold_M. simpl. rewrite IH by auto. by rewrite <- app_assoc.
  - rewrite IH by auto. by rewrite <- app_assoc.
Qed.

Section Run.

Context (E : engine) (self : ESMetadata) `{Py2Order}.

Lemma execute_query_missing w :
  es_exists E (w_calls w) (index self) = Ret false →
  execute_query E self w
  = (Ret None,
     add_log (ERROR, MsgIndexMissing (index self) (host self) (port self))
       (add_call (CExists (index self)) w)).
Proof.
  intros Hex. unfold execute_query, indices_exists. unfold_M. simpl.
  rewrite Hex. simpl. reflexivity.
Qed.

Lemma execute_query_exists_raises w e :
  es_exists E (w_calls w) (index self) = Raise e →
  execute_query E self w = (Raise e, add_call (CExists (index self)) w).
Proof.
  intros Hex. unfold execute_query, indices_exists. unfold_M. simpl.
  by rewrite Hex.
Qed.

Lemma execute_query_search_raises w e :
  es_exists E (w_calls w) (index self) = Ret true →
  es_search E (w_calls w ++ [CExists (index self)]) (index self) (w_query w)
    = Raise e →
  execute_query E self w = (Raise e, first_page self w).
Proof.
  intros Hex Hs. unfold execute_query, indices_exists, search. unfold_M.
  simpl. rewrite Hex. simpl. by rewrite Hs.
Qed.

Lemma execute_query_direct w r :
  es_exists E (w_calls w) (index self) = Ret true →
  es_search E (w_calls w ++ [CExists (index self)]) (index self) (w_query w)
    = Ret r →
  scroll_needed (w_query w) r = false →
  execute_query E self w = (wrap (total r) (Ret (hits r)), first_page self w).
Proof.
  intros Hex Hs Hno. unfold execute_query, indices_exists, search. unfold_M.
  simpl. rewrite Hex. simpl. rewrite Hs, Hno. unfold wrap.
  by destruct (convert_all (hits r)).
Qed.

Lemma execute_query_scroll w r :
  es_exists E (w_calls w) (index self) = Ret true →
  es_search E (w_calls w ++ [CExists (index self)]) (index self) (w_query w)
    = Ret r →
  scroll_needed (w_query w) r = true →
  execute_query E self w
  = let w1 := add_log (WARNING,
                       MsgScroll (total r) (length (hits r))
                         (default (VNum 1) (w_query w !! "size")))
                (first_page self w) in
    (wrap (total r) (_get_results_by_scan E self (total r) w1).1,
     (_get_results_by_scan E self (total r) w1).2).
Proof.
  intros Hex Hs Hyes. unfold execute_query, indices_exists, search. unfold_M.
  simpl. rewrite Hex. simpl. rewrite Hs, Hyes. unfold_M. simpl.
  destruct (_get_results_by_scan _ _ _ _) as [[hs|e] w']; simpl; [|done].
  by destruct (convert_all hs).
Qed.

Lemma scan_search_raises total_match w e :
  es_search E (w_calls w) (index self) (counting_query (w_query w)) = Raise e →
  _get_results_by_scan E self total_match w = (Raise e, recount self w).
Proof.
  intros Hs. unfold _get_results_by_scan, search. unfold_M. simpl.
  fold (counting_query (w_query w)). by rewrite Hs.
Qed.

Lemma scan_len_raises total_match w r sort e :
  es_search E (w_calls w) (index self) (counting_query (w_query w)) = Ret r →
  w_query w !! "sort" = Some sort →
  py_len sort = Raise e →
  _get_results_by_scan E self total_match w = (Raise e, recount self w).
Proof.
  intros Hs Hsort Hlen. unfold _get_results_by_scan, strip_sort, search.
  unfold_M. simpl. fold (counting_query (w_query w)). rewrite Hs. simpl.
  unfold counting_query at 1. rewrite lookup_insert_ne by done.
  rewrite Hsort. unfold_M. by rewrite Hlen.
Qed.

Lemma scan_rejects_sort total_match w r sort n :
  es_search E (w_calls w) (index self) (counting_query (w_query w)) = Ret r →
  w_query w !! "sort" = Some sort →
  py_len sort = Ret n →
  1 < n →
  _get_results_by_scan E self total_match w
  = (Raise (EsUtilException
       "_get_results_by_scan does not support sort with more than one key: %s"
       [sort]),
     recount self w).
Proof.
  intros Hs Hsort Hlen Hn. unfold _get_results_by_scan, strip_sort, search.
  unfold_M. simpl. fold (counting_query (w_query w)). rewrite Hs. simpl.
  unfold counting_query at 1. rewrite lookup_insert_ne by done.
  rewrite Hsort. unfold_M. rewrite Hlen.
  apply Z.ltb_lt in Hn. by rewrite Hn.
Qed.

Lemma scan_query_counting q :
  delete "size" (delete "sort" (counting_query q)) = scan_query q.
Proof.
  unfold counting_query, scan_query.
  rewrite (delete_delete _ "size" "sort"), delete_insert_eq.
  apply delete_delete.
Qed.

Lemma scan_proceeds total_match w r :
  es_search E (w_calls w) (index self) (counting_query (w_query w)) = Ret r →
  sort_accepted (w_query w) →
  _get_results_by_scan E self total_match w
  = (let scroll := es_scan E (w_calls (recount self w)) (index self)
                     (scan_query (w_query w)) DEFAULT_SCROLL_SIZE in
     hits ← drain scroll.1 (total r) [] 0;
     match scroll.2 with Some e => raise e | None => mret tt end;;
     logging DEBUG (MsgHitsFound (length hits));;
     resort (default VNone (w_query w !! "sort")) hits) (scanning self w).
Proof.
  intros Hs Hok. unfold _get_results_by_scan, strip_sort, search, scan.
  unfold_M. simpl. fold (counting_query (w_query w)). rewrite Hs. simpl.
  unfold sort_accepted in Hok.
  assert (Hl : counting_query (w_query w) !! "sort" = w_query w !! "sort")
    by (unfold counting_query; by rewrite lookup_insert_ne).
  rewrite Hl.
  destruct (w_query w !! "sort") as [sort|] eqn:Hsort.
  - destruct Hok as (n & Hlen & Hn). unfold_M. rewrite Hlen.
    apply Z.ltb_ge in Hn. rewrite Hn. simpl.
    unfold has_key. rewrite Hl. simpl.
    rewrite lookup_delete_ne by done.
    unfold counting_query at 1. rewrite lookup_insert_eq. simpl.
    rewrite scan_query_counting. reflexivity.
  - unfold_M. simpl. unfold has_key.
    unfold counting_query at 1. rewrite lookup_insert_eq. simpl.
    assert (Hq : delete "size" (counting_query (w_query w))
                 = scan_query (w_query w)).
    { rewrite <- scan_query_counting.
      by rewrite (delete_id (counting_query (w_query w)) "sort"). }
    rewrite Hq. reflexivity.
Qed.

(** After the scan is started only the log changes. *)
Lemma scan_final_world total_match w r :
  es_search E (w_calls w) (index self) (counting_query (w_query w)) = Ret r →
  sort_accepted (w_query w) →
  let w' := (_get_results_by_scan E self total_match w).2 in
  w_query w' = scan_query (w_query w)
  ∧ w_calls w'
    = w_calls w ++ [CSearch (index self) (counting_query (w_query w));
                    CScan (index self) (scan_query (w_query w))
                      DEFAULT_SCROLL_SIZE].
Proof.
  intros Hs Hok. rewrite (scan_proceeds _ _ _ Hs Hok). cbv zeta.
  match goal with |- context [(?m ≫= ?k) (scanning self w)] =>
    assert (Hq : quiet (m ≫= k)) end.
  { apply quiet_bind; [apply quiet_drain|]. intros hs.
    apply quiet_bind; [destruct (_.2); auto with quiet|]. intros _.
    apply quiet_bind; [auto with quiet|]. intros _. apply quiet_resort. }
  destruct (Hq (scanning self w)) as (-> & -> & _). simpl.
  split; [done|]. by rewrite <- app_assoc.
Qed.

(** Once the hits are read from the scan, [_get_results_by_scan] either
    passes on the error the scan ended with or goes on to sort. *)
Lemma scan_drained total_match w r hs err :
  es_search E (w_calls w) (index self) (counting_query (w_query w)) = Ret r →
  sort_accepted (w_query w) →
  es_scan E (w_calls (recount self w)) (index self) (scan_query (w_query w))
    DEFAULT_SCROLL_SIZE = (hs, err) →
  total r ≠ 0 ∨ hs = [] →
  ∃ w1,
    w_query w1 = scan_query (w_query w)
    ∧ w_calls w1 = w_calls (scanning self w)
    ∧ _get_results_by_scan E self total_match w
      = match err with
        | Some e => (Raise e, w1)
        | None =>
            resort (default VNone (w_query w !! "sort")) hs
              (add_log (DEBUG, MsgHitsFound (length hs)) w1)
        end.
Proof.
  intros Hs Hok Hscan Htotal.
  rewrite (scan_proceeds total_match w r Hs Hok). cbv zeta.
  rewrite Hscan. cbn [fst snd].
  pose proof (drain_returns hs (total r) [] 0 (scanning self w) Htotal) as Hd.
  destruct (quiet_drain hs (total r) [] 0 (scanning self w)) as (Hq & Hc & _).
  unfold mbind, M_bind at 1.
  destruct (drain hs (total r) [] 0 (scanning self w)) as [o w1].
  cbn [fst snd] in Hd, Hq, Hc. subst o. rewrite app_nil_l.
  exists w1. split; [exact Hq|]. split; [exact Hc|].
  destruct err; unfold_M; reflexivity.
Qed.

End Run.

(** ** The instance of the order *)

Lemma string_leb_trans s1 s2 s3 :
  String.leb s1 s2 = true → String.leb s2 s3 = true → String.leb s1 s3 = true.
Proof.
  unfold String.leb. revert s2 s3.
  induction s1 as [|a s1 IH]; intros [|b s2] [|c s3]; simpl; try done.
  unfold Ascii.compare.
  destruct (N.compare_spec (Ascii.N_of_ascii a) (Ascii.N_of_ascii b))
    as [Hab|Hab|Hab]; try done;
  destruct (N.compare_spec (Ascii.N_of_ascii b) (Ascii.N_of_ascii c))
    as [Hbc|Hbc|Hbc]; try done; intros H1 H2.
  - rewrite Hab, Hbc, N.compare_refl. eauto.
  - rewrite Hab. apply N.compare_lt_iff in Hbc. by rewrite Hbc.
  - rewrite <- Hbc. apply N.compare_lt_iff in Hab. by rewrite Hab.
  - assert (Hac : (Ascii.N_of_ascii a < Ascii.N_of_ascii c)%N) by lia.
    apply N.compare_lt_iff in Hac. by rewrite Hac.
Qed.

#[export] Instance scalar_order_laws : Py2OrderLaws.
Proof.
  split; unfold py_le, scalar_order.
  - intros a b. destruct a, b; simpl; try (left; reflexivity);
      try (right; reflexivity); try apply String.leb_total;
      repeat match goal with b : bool |- _ => destruct b end; simpl;
      try (left; reflexivity); try (right; reflexivity); lia.
  - intros a b c. destruct a, b, c; simpl; try done;
      try apply string_leb_trans;
      repeat match goal with b : bool |- _ => destruct b end; simpl;
      try done; lia.
Qed.

(** ** Properties of [execute_query] *)

Section Fetch.

Context (E : engine) (self : ESMetadata) `{Py2Order}.

Lemma scroll_needed_iff q r :
  scroll_needed q r = true
  ↔ q !! "size" = Some (VNum 10000) ∧ Z.of_nat (length (hits r)) < total r.
Proof.
  unfold scroll_needed, has_key, DEFAULT_RESULT_SIZE.
  rewrite andb_true_iff, Z.ltb_lt. split.
  - intros [Hlt Hsize]. split; [|done].
    destruct (q !! "size") as [v|]; [|done]. simpl in Hsize.
    destruct v as [|[]|n| | |]; simpl in Hsize; try done.
    apply Z.eqb_eq in Hsize. by subst.
  - intros [-> Hlt]. by split.
Qed.

(** Whatever happens in it, [_get_results_by_scan] starts with a search for
    the count. *)
Lemma scan_searches_first total_match w :
  ∃ rest, w_calls (_get_results_by_scan E self total_match w).2
          = w_calls w
            ++ CSearch (index self) (counting_query (w_query w)) :: rest.
Proof.
  destruct (es_search E (w_calls w) (index self) (counting_query (w_query w)))
    as [r|e] eqn:Hs.
  2:{ rewrite (scan_search_raises _ _ _ _ _ Hs). by exists []. }
  destruct (w_query w !! "sort") as [sort|] eqn:Hsort.
  - destruct (py_len sort) as [n|e] eqn:Hlen.
    + destruct (Z.le_gt_cases n 1) as [Hn|Hn].
      * destruct (scan_final_world E self total_match w r Hs) as [_ ->].
        { unfold sort_accepted. rewrite Hsort. eauto. }
        by eexists.
      * rewrite (scan_rejects_sort _ _ _ _ _ _ _ Hs Hsort Hlen Hn).
        by exists [].
    + rewrite (scan_len_raises _ _ _ _ _ _ _ Hs Hsort Hlen). by exists [].
  - destruct (scan_final_world E self total_match w r Hs) as [_ ->].
    { unfold sort_accepted. by rewrite Hsort. }
    by eexists.
Qed.

(** C8.  When the collection does not exist [execute_query] returns [None]
    and does not raise: it logs the missing index as an error, makes no
    other call and leaves the query as it was. *)
Theorem execute_query_missing_index_returns_None w :
  es_exists E (w_calls w) (index self) = Ret false →
  execute_query E self w
  = (Ret None,
     {| w_query := w_query w;
        w_log := w_log w ++ [(ERROR, MsgIndexMissing (index self) (host self)
                                       (port self))];
        w_calls := w_calls w ++ [CExists (index self)];
        w_ticks := w_ticks w |}).
Proof. intros Hex. by rewrite execute_query_missing. Qed.

(** C2.  Once the first search has returned, [execute_query] goes through
    the scan exactly when the query has a 'size' entry equal to 10000 and
    the reported total exceeds the number of hits of that first page.  Then
    its result is made of what [_get_results_by_scan] returns: the scan is
    started once the search for the count has returned and the sort is
    accepted, and without a sort the hits that are converted are those the
    scan yielded.  Otherwise it makes no further call and converts the hits
    of the first page. *)
Theorem execute_query_scrolls_iff w r :
  es_exists E (w_calls w) (index self) = Ret true →
  es_search E (w_calls w ++ [CExists (index self)]) (index self) (w_query w)
    = Ret r →
  let condition :=
    w_query w !! "size" = Some (VNum 10000)
    ∧ Z.of_nat (length (hits r)) < total r in
  let counted :=
    w_calls w ++ [CExists (index self); CSearch (index self) (w_query w);
                  CSearch (index self) (counting_query (w_query w))] in
  (searched_again self w (execute_query E self w).2 ↔ condition)
  ∧ (¬ condition →
     execute_query E self w
     = (wrap (total r) (Ret (hits r)), first_page self w))
  ∧ (condition →
     execute_query E self w
     = (wrap (total r)
          (_get_results_by_scan E self (total r) (scroll_entry self w r)).1,
        (_get_results_by_scan E self (total r) (scroll_entry self w r)).2))
  ∧ (condition →
     ∀ r2,
       es_search E (w_calls w ++ [CExists (index self);
                                  CSearch (index self) (w_query w)])
         (index self) (counting_query (w_query w)) = Ret r2 →
       sort_accepted (w_query w) →
       w_calls (execute_query E self w).2
       = counted ++ [CScan (index self) (scan_query (w_query w))
                       DEFAULT_SCROLL_SIZE])
  ∧ (condition →
     ∀ r2 hs,
       es_search E (w_calls w ++ [CExists (index self);
                                  CSearch (index self) (w_query w)])
         (index self) (counting_query (w_query w)) = Ret r2 →
       w_query w !! "sort" = None →
       es_scan E counted (index self) (scan_query (w_query w))
         DEFAULT_SCROLL_SIZE = (hs, None) →
       total r2 ≠ 0 ∨ hs = [] →
       (execute_query E self w).1 = wrap (total r) (Ret hs)).
Proof.
  intros Hex Hs condition counted. subst condition counted.
  rewrite <- scroll_needed_iff.
  destruct (scroll_needed (w_query w) r) eqn:Hneed.
  - assert (Hrun := execute_query_scroll _ _ _ _ Hex Hs Hneed).
    cbv zeta in Hrun. fold (scroll_entry self w r) in Hrun.
    assert (Hrecount : ∀ r2,
      es_search E (w_calls w ++ [CExists (index self);
                                 CSearch (index self) (w_query w)])
        (index self) (counting_query (w_query w)) = Ret r2 →
      es_search E (w_calls (scroll_entry self w r)) (index self)
        (counting_query (w_query (scroll_entry self w r))) = Ret r2).
    { intros r2 Hs2. cbn. by rewrite <- app_assoc. }
    split; [|split; [done|split; [done|split]]].
    + split; [done|]. intros _. rewrite Hrun. cbn [snd].
      unfold searched_again.
      destruct (scan_searches_first (total r) (scroll_entry self w r))
        as [rest ->].
      by exists rest.
    + intros _ r2 Hs2 Hok. rewrite Hrun. cbn [snd].
      destruct (scan_final_world E self (total r) (scroll_entry self w r) r2
                  (Hrecount r2 Hs2) Hok) as [_ ->].
      cbn. by rewrite <- !app_assoc.
    + intros _ r2 hs Hs2 Hsort Hscan Htotal. rewrite Hrun. cbn [fst].
      destruct (scan_drained E self (total r) (scroll_entry self w r) r2 hs
                  None (Hrecount r2 Hs2)) as (w1 & _ & _ & ->).
      * unfold sort_accepted. cbn. by rewrite Hsort.
      * cbn. rewrite <- !app_assoc. exact Hscan.
      * exact Htotal.
      * cbn [scroll_entry first_page add_log add_call w_query].
        rewrite Hsort. reflexivity.
  - rewrite (execute_query_direct _ _ _ _ Hex Hs Hneed).
    split; [|split; [done|split; [done|split; done]]].
    split; [|done].
    intros [rest Hrest]. cbn [snd] in Hrest.
    apply (f_equal length) in Hrest. rewrite length_app in Hrest.
    simpl in Hrest. lia.
Qed.

End Fetch.

Lemma execute_query_scrolls_iff_witness :
  searched_again server (start newest_first)
    (execute_query paged_engine server (start newest_first)).2
  ↔ newest_first !! "size" = Some (VNum 10000) ∧ (2 < 4).
Proof.
  apply (proj1 (execute_query_scrolls_iff paged_engine server
                  (start newest_first) {| total := 4; hits := take 2 store |}
                  eq_refl eq_refl)).
Defined.

Section Scroll.

Context (E : engine) (self : ESMetadata) `{Py2Order}.

Lemma execute_query_off_scroll_path w :
  ¬ takes_scroll_path E self w →
  w_query (execute_query E self w).2 = w_query w.
Proof.
  intros Hno.
  destruct (es_exists E (w_calls w) (index self)) as [[]|e] eqn:Hex.
  - destruct (es_search E (w_calls w ++ [CExists (index self)]) (index self)
                (w_query w)) as [r|e] eqn:Hs.
    + destruct (scroll_needed (w_query w) r) eqn:Hneed.
      * exfalso. apply Hno. split; [done|]. by exists r.
      * by rewrite (execute_query_direct _ _ _ _ Hex Hs Hneed).
    + by rewrite (execute_query_search_raises _ _ _ _ Hex Hs).
  - by rewrite (execute_query_missing _ _ _ Hex).
  - by rewrite (execute_query_exists_raises _ _ _ _ Hex).
Qed.

(** C5.  On the scroll path, a 'sort' entry of length above one makes
    [execute_query] raise with no scan in the trace: the calls made are the
    existence check, the first search and the search for the count.  The
    error is the [EsUtilException] of [_get_results_by_scan] whenever that
    last search returns; an error of that search is passed on instead. *)
Theorem scroll_with_several_sort_keys_raises w r sort n :
  es_exists E (w_calls w) (index self) = Ret true →
  es_search E (w_calls w ++ [CExists (index self)]) (index self) (w_query w)
    = Ret r →
  scroll_needed (w_query w) r = true →
  w_query w !! "sort" = Some sort →
  py_len sort = Ret n →
  1 < n →
  ∃ e w',
    execute_query E self w = (Raise e, w')
    ∧ w_calls w'
      = w_calls w ++ [CExists (index self);
                      CSearch (index self) (w_query w);
                      CSearch (index self) (counting_query (w_query w))]
    ∧ (∀ c, c ∈ w_calls w' → is_scan c = true → c ∈ w_calls w)
    ∧ (∀ r2,
         es_search E (w_calls (scroll_entry self w r)) (index self)
           (counting_query (w_query w)) = Ret r2 →
         e = EsUtilException
               "_get_results_by_scan does not support sort with more than one key: %s"
               [sort]).
Proof.
  intros Hex Hs Hneed Hsort Hlen Hn.
  rewrite (execute_query_scroll _ _ _ _ Hex Hs Hneed). cbv zeta.
  fold (scroll_entry self w r).
  assert (Hcalls : ∀ w', w_calls w' = w_calls (recount self (scroll_entry self w r)) →
    w_calls w' = w_calls w ++ [CExists (index self);
                               CSearch (index self) (w_query w);
                               CSearch (index self) (counting_query (w_query w))]
    ∧ (∀ c, c ∈ w_calls w' → is_scan c = true → c ∈ w_calls w)).
  { intros w' ->. simpl. rewrite <- !app_assoc. simpl. split; [done|].
    intros c Hc Hscan. apply elem_of_app in Hc as [Hc|Hc]; [done|].
    repeat (apply elem_of_cons in Hc as [->|Hc]; [done|]).
    by apply elem_of_nil in Hc. }
  destruct (es_search E (w_calls (scroll_entry self w r)) (index self)
              (counting_query (w_query (scroll_entry self w r)))) as [r2|e] eqn:Hs2.
  - rewrite (scan_rejects_sort _ _ _ _ _ _ _ Hs2 Hsort Hlen Hn). simpl.
    eexists _, _. split; [reflexivity|].
    destruct (Hcalls (recount self (scroll_entry self w r)) eq_refl) as [Hc1 Hc2].
    split; [exact Hc1|]. split; [exact Hc2|]. done.
  - rewrite (scan_search_raises _ _ _ _ _ Hs2). simpl.
    eexists _, _. split; [reflexivity|].
    destruct (Hcalls (recount self (scroll_entry self w r)) eq_refl) as [Hc1 Hc2].
    split; [exact Hc1|]. split; [exact Hc2|].
    intros r2 Hr2. simpl in Hs2. simpl in Hr2. congruence.
Qed.

(** C9, amended.  On the scroll path the query object is changed in place:
    'size' is set to 1 and the search for the count is made with it; when
    that search returns and the 'sort' entry is absent or of length at most
    one, 'sort' and 'size' are then deleted, and when the 'sort' entry is
    longer the run stops with 'size' still 1 and 'sort' still there.  Off
    the scroll path the query object ends as it was. *)
Theorem execute_query_effect_on_query w :
  (∀ r2,
     takes_scroll_path E self w →
     es_search E (w_calls w ++ [CExists (index self);
                                CSearch (index self) (w_query w)])
       (index self) (counting_query (w_query w)) = Ret r2 →
     let w' := (execute_query E self w).2 in
     CSearch (index self) (counting_query (w_query w)) ∈ w_calls w'
     ∧ (sort_accepted (w_query w) →
        w_query w' = delete "size" (delete "sort" (w_query w)))
     ∧ (∀ sort n, w_query w !! "sort" = Some sort → py_len sort = Ret n →
                  1 < n → w_query w' = <["size" := VNum 1]> (w_query w)))
  ∧ (¬ takes_scroll_path E self w →
     w_query (execute_query E self w).2 = w_query w).
Proof.
  split; [|apply execute_query_off_scroll_path].
  intros r2 (Hex & r & Hs & Hneed) Hs2.
  rewrite (execute_query_scroll _ _ _ _ Hex Hs Hneed). cbv zeta.
  fold (scroll_entry self w r). cbn [snd].
  assert (Hs2' : es_search E (w_calls (scroll_entry self w r)) (index self)
                   (counting_query (w_query (scroll_entry self w r))) = Ret r2).
  { simpl. by rewrite <- app_assoc. }
  split; [|split].
  - destruct (scan_searches_first E self (total r) (scroll_entry self w r))
      as [rest ->].
    apply elem_of_app. right. apply elem_of_cons. by left.
  - intros Hok.
    by destruct (scan_final_world E self (total r) (scroll_entry self w r) r2 Hs2'
                   Hok) as [-> _].
  - intros sort n Hsort Hlen Hn.
    by rewrite (scan_rejects_sort _ _ _ _ _ _ _ Hs2' Hsort Hlen Hn).
Qed.

End Scroll.

Lemma scroll_with_several_sort_keys_raises_witness :
  ∃ e w',
    execute_query paged_engine server (start by_host_then_time) = (Raise e, w')
    ∧ w_calls w'
      = [CExists "metadata"; CSearch "metadata" by_host_then_time;
         CSearch "metadata" (counting_query by_host_then_time)]
    ∧ e = EsUtilException
            "_get_results_by_scan does not support sort with more than one key: %s"
            [VList [VDict {[ "hostname" := VStr "asc" ]};
                    VDict {[ "time_recorded" := VStr "asc" ]}]].
Proof.
  destruct (scroll_with_several_sort_keys_raises paged_engine server
              (start by_host_then_time) {| total := 4; hits := take 2 store |}
              (VList [VDict {[ "hostname" := VStr "asc" ]};
                      VDict {[ "time_recorded" := VStr "asc" ]}]) 2)
    as (e & w' & Hrun & Hcalls & _ & He); try reflexivity.
  exists e, w'. split; [exact Hrun|]. split; [exact Hcalls|].
  apply (He {| total := 4; hits := take 1 store |}). reflexivity.
Defined.

(** C9, as specified, fails: with two sort keys the scroll path is taken and
    the run stops at the check of the sort, the query still holding 'size'
    (now 1) and 'sort'. *)
Lemma two_sort_keys_leave_size_and_sort :
  ¬ query_effect_as_specified paged_engine server (start by_host_then_time).
Proof.
  intros [Hscroll _].
  destruct Hscroll as [Hsize _].
  { split; [reflexivity|].
    exists {| total := 4; hits := take 2 store |}. split; reflexivity. }
  vm_compute in Hsize. discriminate.
Qed.

Lemma execute_query_effect_on_query_witness :
  w_query (execute_query paged_engine server (start newest_first)).2
  = delete "size" (delete "sort" newest_first).
Proof.
  apply (proj1 (execute_query_effect_on_query paged_engine server
                  (start newest_first))
           {| total := 4; hits := take 1 store |}).
  - split; [reflexivity|].
    exists {| total := 4; hits := take 2 store |}. split; reflexivity.
  - reflexivity.
  - exists 1. split; [reflexivity | lia].
Defined.

(** ** Order of the hits after a scan *)

Section ScanOrder.

Context (E : engine) (self : ESMetadata) `{Py2OrderLaws}.

Lemma resort_single sort_key direction hs w :
  resort (VList [VDict {[ sort_key := direction ]}]) hs w
  = (sorted hs (sort_value sort_key) (eq_str direction "desc"),
     add_log (DEBUG, MsgSortRule (VList [VDict {[ sort_key := direction ]}])) w).
Proof.
  unfold resort. unfold_M. cbn [truthy py_item0 py_keys py_values].
  rewrite map_to_list_singleton. reflexivity.
Qed.

(** C6.  A scan of a query whose sort is one key with a direction returns
    the hits the scan yielded, rearranged so that their sort values never
    increase when the direction is 'desc' and never decrease otherwise
    ('asc' included).  The sort value of a hit is read from ['_source'] when
    the hit has one and is otherwise the first element of the projection of
    the key.  The search for the count is assumed to return, the scan to end
    without error, and every hit to have a sort value. *)
Theorem scan_returns_hits_in_sort_order total_match w r sort_key direction hs :
  es_search E (w_calls w) (index self) (counting_query (w_query w)) = Ret r →
  w_query w !! "sort" = Some (VList [VDict {[ sort_key := direction ]}]) →
  es_scan E (w_calls (recount self w)) (index self) (scan_query (w_query w))
    DEFAULT_SCROLL_SIZE = (hs, None) →
  total r ≠ 0 ∨ hs = [] →
  Forall (λ h, is_Some (stored_sort_value sort_key h)) hs →
  ∃ hs' w',
    _get_results_by_scan E self total_match w = (Ret hs', w')
    ∧ hs' ≡ₚ hs
    ∧ (direction = VStr "desc" → StronglySorted (flip (key_le sort_key)) hs')
    ∧ (direction ≠ VStr "desc" → StronglySorted (key_le sort_key) hs').
Proof.
  intros Hs Hsort Hscan Htotal Hkeys.
  rewrite (scan_proceeds E self total_match w r Hs).
  2:{ unfold sort_accepted. rewrite Hsort. exists 1. by split. }
  cbv zeta. rewrite Hscan, Hsort. cbn [fst snd default].
  destruct (sorted_spec sort_key hs (eq_str direction "desc") Hkeys)
    as (hs' & Hsorted & Hperm & Hord).
  pose proof (drain_returns hs (total r) [] 0 (scanning self w) Htotal) as Hd.
  unfold mbind, M_bind at 1.
  destruct (drain hs (total r) [] 0 (scanning self w)) as [o w1].
  cbn [fst] in Hd. subst o. rewrite app_nil_l.
  unfold_M. unfold id. cbn [fst snd]. rewrite resort_single, Hsorted.
  eexists _, _. split; [reflexivity|]. split; [exact Hperm|].
  unfold in_order in Hord. split.
  - intros ->. exact Hord.
  - intros Hdir. destruct (eq_str direction "desc") eqn:Heq; [|exact Hord].
    destruct direction; try discriminate. simpl in Heq.
    apply String.eqb_eq in Heq. by subst.
Qed.

End ScanOrder.

Lemma scan_returns_hits_in_sort_order_witness :
  ∃ hs' w',
    _get_results_by_scan paged_engine server 4 (start newest_first)
      = (Ret hs', w')
    ∧ hs' ≡ₚ store
    ∧ StronglySorted (flip (key_le "time_recorded")) hs'.
Proof.
  destruct (scan_returns_hits_in_sort_order paged_engine server 4
              (start newest_first) {| total := 4; hits := take 1 store |}
              "time_recorded" (VStr "desc") store)
    as (hs' & w' & Hrun & Hperm & Hdesc & _).
  - reflexivity.
  - reflexivity.
  - reflexivity.
  - left. discriminate.
  - repeat constructor; by eexists.
  - exists hs', w'. split; [exact Hrun|]. split; [exact Hperm|]. by apply Hdesc.
Defined.

(** ** Properties of [post] and [bulk_post] *)

Section Posting.

Context (E : engine) (self : ESMetadata).

Lemma truthy_dict (d : dict) : d ≠ ∅ → truthy (VDict d) = true.
Proof.
  intros Hne. simpl. apply map_size_non_empty_iff in Hne.
  by destruct (size d).
Qed.

Lemma post_unfold type_str metadata log_time_recorded kwargs w :
  metadata ≠ ∅ →
  post E self type_str metadata log_time_recorded kwargs w
  = try_except
      ((if use_http self
        then _send_data_http E self (posted_type type_str metadata kwargs)
               (posted_record metadata kwargs log_time_recorded
                  (time_time E (w_ticks w)))
        else _send_data_udp E self (posted_type type_str metadata kwargs)
               (posted_record metadata kwargs log_time_recorded
                  (time_time E (w_ticks w))));;
       mret true)
      is_ElasticsearchException
      (λ e, logging ERROR (MsgExn e);; mret false)
      (if log_time_recorded then tick w else w).
Proof.
  intros Hne. unfold post, posted_type, posted_record.
  rewrite (truthy_dict _ Hne). cbn [negb].
  destruct ((kwargs ∪ metadata) !! "_type") as [t|] eqn:Ht; cbn [default].
  - destruct log_time_recorded; reflexivity.
  - rewrite (delete_id _ _ Ht). destruct log_time_recorded; reflexivity.
Qed.

(** Over HTTP an error of the engine is logged inside [_send_data_http],
    and [post] goes on to return [True]. *)
Lemma post_http_engine_error type_str metadata log_time_recorded kwargs w msg :
  use_http self = true →
  metadata ≠ ∅ →
  (∀ calls t body,
     es_index E calls (index self) t body = Raise (ElasticsearchException msg)) →
  ∃ w', post E self type_str metadata log_time_recorded kwargs w
        = (Ret true, w')
        ∧ w_log w' = w_log w ++ [(ERROR, MsgExn (ElasticsearchException msg))].
Proof.
  intros Hhttp Hne Hfail. rewrite (post_unfold _ _ _ _ _ Hne), Hhttp.
  unfold _send_data_http, es_index_call. unfold_M. simpl.
  rewrite Hfail. simpl. eexists; split; [reflexivity|].
  by destruct log_time_recorded.
Qed.

(** Over UDP a socket error is logged inside [_send_data_udp], and [post]
    goes on to return [True]. *)
Lemma post_udp_socket_error type_str metadata log_time_recorded kwargs w msg :
  use_http self = false →
  metadata ≠ ∅ →
  (∀ calls message,
     sock_sendto E calls message (host self) (udp_port self)
     = Raise (SocketError msg)) →
  ∃ w', post E self type_str metadata log_time_recorded kwargs w
        = (Ret true, w')
        ∧ w_log w' = w_log w ++ [(WARNING, MsgExn (SocketError msg))].
Proof.
  intros Hudp Hne Hfail. rewrite (post_unfold _ _ _ _ _ Hne), Hudp.
  unfold _send_data_udp, sendto. unfold_M. simpl.
  rewrite Hfail. simpl. eexists; split; [reflexivity|].
  by destruct log_time_recorded.
Qed.

(** Over HTTP [post] indexes the record under the type it settled on. *)
Lemma post_http_call type_str metadata log_time_recorded kwargs w :
  use_http self = true →
  metadata ≠ ∅ →
  w_calls (post E self type_str metadata log_time_recorded kwargs w).2
  = w_calls w
    ++ [CIndex (index self) (posted_type type_str metadata kwargs)
          (posted_record metadata kwargs log_time_recorded
             (time_time E (w_ticks w)))].
Proof.
  intros Hhttp Hne. rewrite (post_unfold _ _ _ _ _ Hne), Hhttp.
  unfold _send_data_http, es_index_call. unfold_M. simpl.
  destruct (es_index E _ _ _ _) as [[]|e]; simpl.
  - by destruct log_time_recorded.
  - destruct (is_ElasticsearchException e) eqn:He; simpl; rewrite ?He;
      simpl; by destruct log_time_recorded.
Qed.

Lemma bulk_actions_spec data_list log_time_recorded kwargs w :
  ∃ actions w',
    bulk_actions E self data_list log_time_recorded kwargs w = (Ret actions, w')
    ∧ w_calls w' = w_calls w ∧ w_log w' = w_log w ∧ w_query w' = w_query w
    ∧ Forall2 (action_of self kwargs) data_list actions.
Proof.
  revert w. induction data_list as [|metadata rest IH]; intros w.
  { exists [], w. by repeat split. }
  cbn [bulk_actions]. unfold has_key.
  assert (Hone : ∀ stamped : dict,
            (∀ k, k ≠ "time_recorded" → stamped !! k = (kwargs ∪ metadata) !! k) →
            (∀ v, (kwargs ∪ metadata) !! "time_recorded" = Some v →
                  stamped !! "time_recorded" = Some v) →
            action_of self kwargs metadata (<["_index" := VStr (index self)]> stamped)).
  { intros stamped Hsame Htime. split; [apply lookup_insert_eq|]. split.
    - intros k Hk1 Hk2. rewrite lookup_insert_ne by done. by apply Hsame.
    - intros v Hv. rewrite lookup_insert_ne by done. by apply Htime. }
  destruct ((kwargs ∪ metadata) !! "time_recorded") as [v|] eqn:Htime;
    [|destruct log_time_recorded]; cbn [negb andb].
  1: rewrite andb_false_r.
  1, 3: unfold_M; simpl;
    destruct (IH w) as (actions & w' & -> & Hc & Hl & Hq & Hall);
    eexists _, _; split; [reflexivity|]; repeat (split; [done|]);
    constructor; [|done]; apply Hone; [done|congruence].
  unfold_M. simpl. unfold time_now. simpl.
  destruct (IH (tick w)) as (actions & w' & -> & Hc & Hl & Hq & Hall).
  eexists _, _. split; [reflexivity|]. repeat (split; [done|]).
  constructor; [|done]. apply Hone.
  - intros k Hk. by rewrite lookup_insert_ne.
  - intros v Hv. congruence.
Qed.

(** [bulk_post] makes one call, with one action for every record. *)
Lemma bulk_post_call data_list log_time_recorded kwargs w :
  data_list ≠ [] →
  ∃ actions,
    w_calls (bulk_post E self data_list log_time_recorded kwargs w).2
      = w_calls w ++ [CBulk actions]
    ∧ Forall2 (action_of self kwargs) data_list actions.
Proof.
  intros Hne. unfold bulk_post.
  destruct data_list as [|metadata rest]; [done|].
  destruct (bulk_actions_spec (metadata :: rest) log_time_recorded kwargs w)
    as (actions & w' & Hrun & Hc & _ & _ & Hall).
  exists actions. split; [|done].
  unfold mbind, M_bind at 1. rewrite Hrun.
  unfold helpers_bulk. unfold_M. simpl.
  destruct (es_bulk E (w_calls w') actions) as [[]|e]; simpl;
    [by rewrite Hc|].
  destruct (is_ElasticsearchException e); simpl; by rewrite Hc.
Qed.

(** [bulk_post] keeps a 'time_recorded' the caller gave. *)
Lemma bulk_post_keeps_time_recorded data_list log_time_recorded kwargs w :
  data_list ≠ [] →
  ∃ actions,
    w_calls (bulk_post E self data_list log_time_recorded kwargs w).2
      = w_calls w ++ [CBulk actions]
    ∧ Forall2 (λ metadata action : dict,
                 ∀ v, (kwargs ∪ metadata) !! "time_recorded" = Some v →
                      action !! "time_recorded" = Some v)
        data_list actions.
Proof.
  intros Hne.
  destruct (bulk_post_call data_list log_time_recorded kwargs w Hne)
    as (actions & Hcalls & Hall).
  exists actions. split; [done|].
  eapply Forall2_impl; [exact Hall|]. by intros m a (_ & _ & Htime).
Qed.

(** [post], when it stamps, sends the reading of the clock under
    'time_recorded' whatever the record held there. *)
Lemma post_http_stamps_clock type_str metadata kwargs w :
  use_http self = true →
  metadata ≠ ∅ →
  ∃ body,
    w_calls (post E self type_str metadata true kwargs w).2
      = w_calls w
        ++ [CIndex (index self) (posted_type type_str metadata kwargs) body]
    ∧ body !! "time_recorded" = Some (time_time E (w_ticks w)).
Proof.
  intros Hhttp Hne. eexists. split; [by apply post_http_call|].
  unfold posted_record. apply lookup_insert_eq.
Qed.

(** C10.  [bulk_post] hands the engine one action per record, and each
    action holds under '_type' what the record (with the extra fields merged
    in) holds there, and under '_index' the name of the collection.  [post],
    over HTTP, indexes the record under the value of its '_type' entry and
    without that entry. *)
Theorem bulk_post_keeps_type_and_sets_index data_list log_time_recorded
    kwargs w :
  (data_list ≠ [] →
   ∃ actions,
     w_calls (bulk_post E self data_list log_time_recorded kwargs w).2
       = w_calls w ++ [CBulk actions]
     ∧ Forall2 (λ metadata action : dict,
                  action !! "_type" = (kwargs ∪ metadata) !! "_type"
                  ∧ action !! "_index" = Some (VStr (index self)))
         data_list actions)
  ∧ (∀ type_str metadata t,
       use_http self = true →
       metadata ≠ ∅ →
       (kwargs ∪ metadata) !! "_type" = Some t →
       ∃ body,
         w_calls (post E self type_str metadata log_time_recorded kwargs w).2
           = w_calls w ++ [CIndex (index self) t body]
         ∧ body !! "_type" = None).
Proof.
  split.
  - intros Hne.
    destruct (bulk_post_call data_list log_time_recorded kwargs w Hne)
      as (actions & Hcalls & Hall).
    exists actions. split; [done|].
    eapply Forall2_impl; [exact Hall|].
    intros m a (Hidx & Hsame & _). split; [by apply Hsame|done].
  - intros type_str metadata t Hhttp Hne Ht.
    eexists. split.
    + rewrite (post_http_call _ _ _ _ _ Hhttp Hne).
      unfold posted_type. rewrite Ht. reflexivity.
    + unfold posted_record. destruct log_time_recorded.
      * rewrite lookup_insert_ne by done. apply lookup_delete_eq.
      * apply lookup_delete_eq.
Qed.

End Posting.

Lemma execute_query_missing_index_returns_None_witness :
  execute_query paged_engine
    {| use_http := true; host := "localhost"; port := 9200;
       index := "no_such_index"; udp_port := 9700;
       timeout := DEFAULT_TIMEOUT |}
    (start first_twenty)
  = (Ret None,
     {| w_query := first_twenty;
        w_log := [(ERROR, MsgIndexMissing "no_such_index" "localhost" 9200)];
        w_calls := [CExists "no_such_index"];
        w_ticks := 0 |}).
Proof.
  apply (execute_query_missing_index_returns_None paged_engine
           {| use_http := true; host := "localhost"; port := 9200;
              index := "no_such_index"; udp_port := 9700;
              timeout := DEFAULT_TIMEOUT |}
           (start first_twenty)).
  reflexivity.
Defined.

Lemma bulk_post_keeps_type_and_sets_index_witness :
  ∃ actions,
    w_calls (bulk_post paged_engine server [typed_record; timed_record] true ∅
               (start ∅)).2
      = [CBulk actions]
    ∧ Forall2 (λ metadata action : dict,
                 action !! "_type" = (∅ ∪ metadata) !! "_type"
                 ∧ action !! "_index" = Some (VStr "metadata"))
        [typed_record; timed_record] actions.
Proof.
  apply (proj1 (bulk_post_keeps_type_and_sets_index paged_engine server
                  [typed_record; timed_record] true ∅ (start ∅))).
  discriminate.
Defined.

(** C1, on the code: with an engine that cannot be reached, [post] of a
    non-empty record logs the error and returns [True], over HTTP and over
    UDP alike; it does not raise, and it does not return [False]. *)
Theorem post_returns_True_on_transport_failure :
  post unreachable_engine server (VStr "host_history")
    {[ "host_id" := VNum 1 ]} true ∅ (start ∅)
  = (Ret true,
     {| w_query := ∅;
        w_log := [(ERROR, MsgExn (ElasticsearchException "ConnectionError"))];
        w_calls := [CIndex "metadata" (VStr "host_history")
                      (<["time_recorded" := VNum 1405628341]>
                         {[ "host_id" := VNum 1 ]})];
        w_ticks := 1 |})
  ∧ post unreachable_engine udp_server (VStr "host_history")
      {[ "host_id" := VNum 1 ]} true ∅ (start ∅)
    = (Ret true,
       {| w_query := ∅;
          w_log := [(WARNING, MsgExn (SocketError "Network is unreachable"))];
          w_calls := [CSendto ("{}" +:+ newline +:+ "{}" +:+ newline)
                        "localhost" 9700];
          w_ticks := 1 |}).
Proof. split; vm_compute; reflexivity. Qed.

(** C4, on the code: [post] stamps 'time_recorded' over the value the caller
    gave, where [bulk_post] keeps the caller's value. *)
Theorem post_overwrites_time_recorded :
  w_calls (post paged_engine server (VStr "host_history") timed_record true ∅
             (start ∅)).2
  = [CIndex "metadata" (VStr "host_history")
       (<["time_recorded" := VNum 1405628341]> {[ "host_id" := VNum 1 ]})]
  ∧ w_calls (bulk_post paged_engine server [timed_record] true ∅ (start ∅)).2
    = [CBulk [<["_index" := VStr "metadata"]> timed_record]].
Proof. split; vm_compute; reflexivity. Qed.

(** ** Runs on the sample deployment *)

(** The query of one host in a time window: two must-clauses, the size
    asked for, no sort. *)
Example compose_host_in_window :
  ∃ query,
    _compose_query [("host_id", VNum 5)] VNone
      [("time_recorded", VNum 100, VNum 200)] (VNum 20) VNone [] []
      = Ret query
    ∧ must_clauses query
      = Some [VDict {[ "term" := VDict {[ "host_id" := VNum 5 ]} ]};
              VDict {[ "range" :=
                       VDict {[ "time_recorded" :=
                                VDict (<["gte" := VNum 100]>
                                         {[ "lte" := VNum 200 ]}) ]} ]}]
    ∧ query !! "size" = Some (VNum 20)
    ∧ query !! "sort" = None.
Proof. eexists. split; [reflexivity|]. vm_compute. done. Qed.

(** With the default size and a truncated first page every stored record is
    fetched by the scan and returned newest first, converted. *)
Example newest_first_run :
  (execute_query paged_engine server (start newest_first)).1
  = Ret (Some {| qr_total := 4;
                 qr_hits :=
                   [<["time_recorded" := VNum 300]> {[ "hostname" := VStr "b" ]};
                    {[ "time_recorded" := VNum 250 ]};
                    <["time_recorded" := VNum 200]> {[ "hostname" := VStr "c" ]};
                    <["time_recorded" := VNum 100]> {[ "hostname" := VStr "a" ]}] |}).
Proof. vm_compute. reflexivity. Qed.

(** With another size the truncated first page is returned as it is. *)
Example first_twenty_run :
  execute_query paged_engine server (start first_twenty)
  = (Ret (Some {| qr_total := 4;
                  qr_hits :=
                    [<["time_recorded" := VNum 100]> {[ "hostname" := VStr "a" ]};
                     <["time_recorded" := VNum 300]> {[ "hostname" := VStr "b" ]}] |}),
     {| w_query := first_twenty; w_log := [];
        w_calls := [CExists "metadata"; CSearch "metadata" first_twenty];
        w_ticks := 0 |}).
Proof. vm_compute. reflexivity. Qed.

(** An empty record, and an empty list of records, are reported posted
    without any call. *)
Example post_nothing :
  post unreachable_engine server (VStr "host_history") ∅ true ∅ (start ∅)
  = (Ret true, start ∅)
  ∧ bulk_post unreachable_engine server [] true ∅ (start ∅)
    = (Ret true, start ∅).
Proof. split; reflexivity. Qed.

(** [bulk_post], unlike [post], reports an engine failure as [False]. *)
Example bulk_post_unreachable :
  (bulk_post unreachable_engine server [timed_record] true ∅ (start ∅)).1
  = Ret false.
Proof. vm_compute. reflexivity. Qed.

(** ** Further properties of [post] and [bulk_post] *)

Section PostingOutcome.

Context (E : engine) (self : ESMetadata).



(** X2.  Over HTTP [post] makes one index call and never answers [False]: it
    returns [True] when the call returns and when it raises an error of the
    engine, and passes on any other exception. *)
Theorem post_http_outcome type_str metadata log_time_recorded kwargs w :
  use_http self = true →
  metadata ≠ ∅ →
  let answer :=
    es_index E (w_calls w) (index self)
      (posted_type type_str metadata kwargs)
      (posted_record metadata kwargs log_time_recorded
         (time_time E (w_ticks w))) in
  (post E self type_str metadata log_time_recorded kwargs w).1
  = match answer with
    | Ret _ => Ret true
    | Raise e => if is_ElasticsearchException e then Ret true else Raise e
    end
  ∧ (post E self type_str metadata log_time_recorded kwargs w).1 ≠ Ret false.
Proof.
  intros Hhttp Hne answer.
  assert (Hout : (post E self type_str metadata log_time_recorded kwargs w).1
    = match answer with
      | Ret _ => Ret true
      | Raise e => if is_ElasticsearchException e then Ret true else Raise e
      end).
  { subst answer. rewrite (post_unfold _ _ _ _ _ _ _ Hne), Hhttp.
    unfold _send_data_http, es_index_call. unfold_M. simpl.
    assert (Hc : w_calls (if log_time_recorded then tick w else w) = w_calls w)
      by (by destruct log_time_recorded).
    rewrite Hc. destruct (es_index E _ _ _ _) as [[]|e]; simpl; [done|].
    destruct (is_ElasticsearchException e) eqn:He; simpl; [done|].
    by rewrite He. }
  split; [exact Hout|]. rewrite Hout.
  destruct answer as [[]|e]; [done|].
  by destruct (is_ElasticsearchException e).
Qed.


(** X4.  What [post] sends over HTTP: the record with the extra fields merged
    over it.  The type is the '_type' of the merged record when it has one
    and the type passed in otherwise, the '_type' entry itself is not sent,
    'time_recorded' is the clock reading when stamping is on, and every other
    entry is the merged one. *)
Theorem post_sends_merged_record type_str metadata log_time_recorded kwargs w :
  use_http self = true →
  metadata ≠ ∅ →
  let merged k :=
    match kwargs !! k with Some v => Some v | None => metadata !! k end in
  ∃ body,
    w_calls (post E self type_str metadata log_time_recorded kwargs w).2
    = w_calls w
      ++ [CIndex (index self) (default type_str (merged "_type")) body]
    ∧ body !! "_type" = None
    ∧ body !! "time_recorded"
      = (if log_time_recorded then Some (time_time E (w_ticks w))
         else merged "time_recorded")
    ∧ (∀ k, k ≠ "_type" → k ≠ "time_recorded" → body !! k = merged k).
Proof.
  intros Hhttp Hne merged.
  assert (Hm : ∀ k, (kwargs ∪ metadata) !! k = merged k).
  { intros k. subst merged. cbv beta. rewrite lookup_union.
    by destruct (kwargs !! k), (metadata !! k). }
  eexists. split.
  { rewrite (post_http_call _ _ _ _ _ _ _ Hhttp Hne).
    unfold posted_type. rewrite Hm. reflexivity. }
  unfold posted_record. destruct log_time_recorded.
  - split; [rewrite lookup_insert_ne by done; apply lookup_delete_eq|].
    split; [apply lookup_insert_eq|].
    intros k Hk1 Hk2. rewrite lookup_insert_ne by done.
    rewrite lookup_delete_ne by done. apply Hm.
  - split; [apply lookup_delete_eq|].
    split; [rewrite lookup_delete_ne by done; apply Hm|].
    intros k Hk1 Hk2. rewrite lookup_delete_ne by done. apply Hm.
Qed.

(** X5.  [bulk_post] makes one bulk call with one action for every record; it
    returns [True] when the call returns, logs the error and returns [False]
    when the call raises an error of the engine, and passes on any other
    exception. *)
Theorem bulk_post_outcome data_list log_time_recorded kwargs w :
  data_list ≠ [] →
  ∃ actions,
    length actions = length data_list
    ∧ w_calls (bulk_post E self data_list log_time_recorded kwargs w).2
      = w_calls w ++ [CBulk actions]
    ∧ (bulk_post E self data_list log_time_recorded kwargs w).1
      = match es_bulk E (w_calls w) actions with
        | Ret _ => Ret true
        | Raise e => if is_ElasticsearchException e then Ret false else Raise e
        end
    ∧ w_log (bulk_post E self data_list log_time_recorded kwargs w).2
      = match es_bulk E (w_calls w) actions with
        | Raise (ElasticsearchException msg) =>
            w_log w ++ [(ERROR, MsgExn (ElasticsearchException msg))]
        | _ => w_log w
        end.
Proof.
  intros Hne.
  destruct data_list as [|metadata rest]; [done|].
  destruct (bulk_actions_spec E self (metadata :: rest) log_time_recorded
              kwargs w) as (actions & w' & Hrun & Hc & Hl & _ & Hall).
  exists actions. split; [symmetry; by eapply Forall2_length|].
  assert (Heq : bulk_post E self (metadata :: rest) log_time_recorded kwargs w
    = match es_bulk E (w_calls w) actions with
      | Ret _ => (Ret true, add_call (CBulk actions) w')
      | Raise e =>
          if is_ElasticsearchException e
          then (Ret false,
                add_log (ERROR, MsgExn e) (add_call (CBulk actions) w'))
          else (Raise e, add_call (CBulk actions) w')
      end).
  { unfold bulk_post. unfold mbind, M_bind at 1. rewrite Hrun.
    unfold helpers_bulk. unfold_M. cbn [fst snd]. rewrite Hc.
    by destruct (es_bulk E (w_calls w) actions) as [[]|e]. }
  rewrite Heq.
  destruct (es_bulk E (w_calls w) actions) as [[]|e];
    cbn [fst snd add_call add_log w_calls w_log].
  { by rewrite Hc, Hl. }
  destruct e; cbn [is_ElasticsearchException fst snd add_call add_log w_calls
                   w_log]; by rewrite Hc, Hl.
Qed.

End PostingOutcome.

Section PostingTimes.

Context (E : engine) (self : ESMetadata).

Lemma unstamped_cons kwargs (metadata : dict) rest :
  unstamped kwargs (metadata :: rest)
  = ((if has_key "time_recorded" (kwargs ∪ metadata) then 0 else 1)
     + unstamped kwargs rest)%nat.
Proof.
  unfold unstamped, count_where. cbn [List.filter].
  by destruct (has_key "time_recorded" (kwargs ∪ metadata)).
Qed.

Lemma bulk_actions_times data_list log_time_recorded kwargs w :
  ∃ actions w',
    bulk_actions E self data_list log_time_recorded kwargs w = (Ret actions, w')
    ∧ w_ticks w'
      = (w_ticks w
         + (if log_time_recorded then unstamped kwargs data_list else 0))%nat
    ∧ length actions = length data_list
    ∧ (∀ i metadata action,
         data_list !! i = Some metadata → actions !! i = Some action →
         action !! "time_recorded"
         = action_time E log_time_recorded kwargs w data_list i metadata).
Proof.
  revert w. induction data_list as [|metadata rest IH]; intros w.
  { exists [], w. split; [done|]. split; [by destruct log_time_recorded; simpl|].
    split; [done|]. by intros i m a Hi. }
  cbn [bulk_actions]. rewrite unstamped_cons.
  destruct (has_key "time_recorded" (kwargs ∪ metadata)) eqn:Hkey;
    [|destruct log_time_recorded eqn:Hflag]; cbn [negb andb];
    rewrite ?andb_false_r; unfold has_key in Hkey;
    destruct ((kwargs ∪ metadata) !! "time_recorded") as [v|] eqn:Htime;
    try discriminate Hkey.
  - unfold_M. cbn [fst snd].
    destruct (IH w) as (actions & w' & -> & Hticks & Hlen & Hall).
    eexists _, _. split; [reflexivity|]. split; [exact Hticks|].
    split; [cbn [length]; by rewrite Hlen|].
    intros [|i] m a Hm Ha; cbn in Hm, Ha.
    + injection Hm as <-. injection Ha as <-. unfold action_time.
      rewrite Htime. by rewrite lookup_insert_ne.
    + rewrite (Hall i m a Hm Ha). unfold action_time. cbn [take].
      rewrite unstamped_cons. unfold has_key. by rewrite Htime.
  - unfold_M. unfold time_now. cbn [fst snd].
    destruct (IH (tick w)) as (actions & w' & -> & Hticks & Hlen & Hall).
    eexists _, _. split; [reflexivity|].
    split; [rewrite Hticks; cbn [w_ticks tick]; lia|].
    split; [cbn [length]; by rewrite Hlen|].
    intros [|i] m a Hm Ha; cbn in Hm, Ha.
    + injection Hm as <-. injection Ha as <-. unfold action_time.
      rewrite Htime. rewrite lookup_insert_ne by done.
      rewrite lookup_insert_eq. cbn [take]. unfold unstamped, count_where.
      cbn [List.filter length]. by rewrite Nat.add_0_r.
    + rewrite (Hall i m a Hm Ha). unfold action_time. cbn [take].
      rewrite unstamped_cons. unfold has_key. rewrite Htime.
      destruct ((kwargs ∪ m) !! "time_recorded"); [done|].
      cbn [w_ticks tick]. do 2 f_equal. lia.
  - unfold_M. cbn [fst snd].
    destruct (IH w) as (actions & w' & -> & Hticks & Hlen & Hall).
    eexists _, _. split; [reflexivity|]. split; [rewrite Hticks; lia|].
    split; [cbn [length]; by rewrite Hlen|].
    intros [|i] m a Hm Ha; cbn in Hm, Ha.
    + injection Hm as <-. injection Ha as <-. unfold action_time.
      rewrite Htime. rewrite lookup_insert_ne by done. exact Htime.
    + rewrite (Hall i m a Hm Ha). unfold action_time.
      by destruct ((kwargs ∪ m) !! "time_recorded").
Qed.

(** X6.  In the actions [bulk_post] sends, a 'time_recorded' the caller gave is
    kept; a record without one stays without one when stamping is off, and
    when stamping is on it gets the reading of the clock taken for it: the
    clock is read once for every such record, in the order of the list, and
    not otherwise. *)
Theorem bulk_post_time_recorded data_list log_time_recorded kwargs w :
  data_list ≠ [] →
  ∃ actions,
    w_calls (bulk_post E self data_list log_time_recorded kwargs w).2
    = w_calls w ++ [CBulk actions]
    ∧ length actions = length data_list
    ∧ (∀ i metadata action,
         data_list !! i = Some metadata → actions !! i = Some action →
         action !! "time_recorded"
         = action_time E log_time_recorded kwargs w data_list i metadata)
    ∧ w_ticks (bulk_post E self data_list log_time_recorded kwargs w).2
      = (w_ticks w
         + (if log_time_recorded then unstamped kwargs data_list else 0))%nat.
Proof.
  intros Hne.
  destruct (bulk_actions_times data_list log_time_recorded kwargs w)
    as (actions & w' & Hrun & Hticks & Hlen & Htimes).
  destruct (bulk_actions_spec E self data_list log_time_recorded kwargs w)
    as (actions' & w'' & Hrun' & Hc & _ & _ & _).
  rewrite Hrun in Hrun'. injection Hrun' as <- <-.
  exists actions.
  assert (Heq : ∃ w1,
    (bulk_post E self data_list log_time_recorded kwargs w).2 = w1
    ∧ w_calls w1 = w_calls w' ++ [CBulk actions]
    ∧ w_ticks w1 = w_ticks w').
  { unfold bulk_post. destruct data_list as [|metadata rest]; [done|].
    unfold mbind, M_bind at 1. rewrite Hrun.
    unfold helpers_bulk. unfold_M. cbn [fst snd].
    destruct (es_bulk E (w_calls w') actions) as [[]|e];
      cbn [fst snd]; [by eexists|].
    destruct (is_ElasticsearchException e); cbn [fst snd]; by eexists. }
  destruct Heq as (w1 & -> & Hc1 & Ht1).
  rewrite Hc1, Ht1, Hc. by repeat split.
Qed.

End PostingTimes.

(** ** Further properties of [_compose_query] *)

Lemma compose_shape equality fields_returned range size sort_specs regex batch :
  equality ≠ [] ∨ range ≠ [] →
  ∃ composed,
    _compose_query equality fields_returned range size sort_specs regex batch
      = Ret composed
    ∧ composed !! "size" = Some size
    ∧ composed !! "fields"
      = (if truthy fields_returned then Some fields_returned else None)
    ∧ composed !! "sort"
      = (if truthy sort_specs then Some sort_specs else None)
    ∧ (∀ k, k ≠ "query" → k ≠ "fields" → k ≠ "size" → k ≠ "sort" →
            composed !! k = None).
Proof.
  intros Hne.
  assert (Hret : ∃ composed,
    _compose_query equality fields_returned range size sort_specs regex batch
      = Ret composed
    ∧ composed
      = (let composed : dict :=
           {[ "query" :=
              VDict {[ "bool" :=
                       VDict {[ "must" :=
                                VList (clause_list "term" equality
                                       ++ clause_list "terms" batch
                                       ++ range_clauses range
                                       ++ clause_list "regexp" regex) ]} ]} ]} in
         let composed :=
           if truthy fields_returned
           then <["fields" := fields_returned]> composed else composed in
         let composed := <["size" := size]> composed in
         if truthy sort_specs then <["sort" := sort_specs]> composed
         else composed)).
  { unfold _compose_query.
    destruct equality as [|e equality], range as [|r range];
      try (destruct Hne; congruence); by eexists. }
  destruct Hret as (composed & Hrun & ->). eexists. split; [exact Hrun|].
  cbv zeta.
  destruct (truthy fields_returned), (truthy sort_specs);
    repeat split;
    repeat first
      [ rewrite lookup_insert_eq
      | rewrite lookup_insert_ne by done
      | rewrite lookup_singleton_ne by done ];
    try done;
    intros k ? ? ? ?;
    repeat first
      [ rewrite lookup_insert_ne by done
      | rewrite lookup_singleton_ne by done ];
    done.
Qed.

(** X8.  Whenever a query is composed it holds the size that was asked for, the
    fields and the sort exactly when they were given (and then as given),
    and nothing besides 'query', 'fields', 'size' and 'sort'. *)
Theorem compose_size_fields_sort equality fields_returned range size
    sort_specs regex batch :
  equality ≠ [] ∨ range ≠ [] →
  ∃ composed,
    _compose_query equality fields_returned range size sort_specs regex batch
      = Ret composed
    ∧ composed !! "size" = Some size
    ∧ composed !! "fields"
      = (if truthy fields_returned then Some fields_returned else None)
    ∧ composed !! "sort"
      = (if truthy sort_specs then Some sort_specs else None)
    ∧ (∀ k, k ≠ "query" → k ≠ "fields" → k ≠ "size" → k ≠ "sort" →
            composed !! k = None).
Proof. apply compose_shape. Qed.

Lemma clause_list_elem kind constraints k v :
  (k, v) ∈ constraints → k ≠ "" →
  VDict {[ kind := VDict {[ k := v ]} ]} ∈ clause_list kind constraints.
Proof.
  intros Hin Hk. induction constraints as [|[k' v'] rest IH];
    [by apply elem_of_nil in Hin|].
  cbn [clause_list].
  apply elem_of_cons in Hin as [Heq|Hin].
  - injection Heq as <- <-. cbn [truthy].
    apply String.eqb_neq in Hk. rewrite Hk. cbn [negb]. by left.
  - destruct (truthy (VStr k')); [right|]; by apply IH.
Qed.

Lemma range_clauses_elem range key low high :
  (key, low, high) ∈ range →
  is_None low && is_None high = false →
  ∃ bounds : dict,
    VDict {[ "range" := VDict {[ key := VDict bounds ]} ]} ∈ range_clauses range
    ∧ bounds !! "gte" = (if is_None low then None else Some low)
    ∧ bounds !! "lte" = (if is_None high then None else Some high)
    ∧ (∀ k, k ≠ "gte" → k ≠ "lte" → bounds !! k = None).
Proof.
  intros Hin Hb. induction range as [|[[key' low'] high'] rest IH];
    [by apply elem_of_nil in Hin|].
  cbn [range_clauses].
  apply elem_of_cons in Hin as [Heq|Hin].
  - injection Heq as <- <- <-. rewrite Hb.
    eexists. split; [by left|].
    destruct (is_None low), (is_None high); cbn [negb];
      repeat split;
      repeat first
        [ rewrite lookup_insert_eq
        | rewrite lookup_insert_ne by done
        | rewrite lookup_empty ];
      try done;
      intros k ? ?;
      repeat first
        [ rewrite lookup_insert_ne by done
        | rewrite lookup_empty ];
      done.
  - destruct (IH Hin) as (bounds & Hel & Hrest). exists bounds.
    split; [|done].
    destruct (is_None low' && is_None high'); [done|by right].
Qed.

(** X9.  Every equality, batch and regex constraint with a non-empty field name
    is in the must-group of the composed query, as a 'term', 'terms' and
    'regexp' clause on that field. *)
Theorem compose_keeps_named_constraints equality fields_returned range size
    sort_specs regex batch :
  equality ≠ [] ∨ range ≠ [] →
  ∃ composed clauses,
    _compose_query equality fields_returned range size sort_specs regex batch
      = Ret composed
    ∧ must_clauses composed = Some clauses
    ∧ (∀ k v, (k, v) ∈ equality → k ≠ "" →
              VDict {[ "term" := VDict {[ k := v ]} ]} ∈ clauses)
    ∧ (∀ k v, (k, v) ∈ batch → k ≠ "" →
              VDict {[ "terms" := VDict {[ k := v ]} ]} ∈ clauses)
    ∧ (∀ k v, (k, v) ∈ regex → k ≠ "" →
              VDict {[ "regexp" := VDict {[ k := v ]} ]} ∈ clauses).
Proof.
  intros Hne.
  destruct (compose_returns equality fields_returned range size sort_specs
              regex batch Hne) as (composed & Hrun & Hmust).
  eexists _, _. split; [exact Hrun|]. split; [exact Hmust|].
  repeat split; intros k v Hin Hk; rewrite !elem_of_app.
  - left. by apply clause_list_elem.
  - right; left. by apply clause_list_elem.
  - right; right; right. by apply clause_list_elem.
Qed.

(** X10.  A range constraint with a bound is in the must-group as a 'range'
    clause on its field that holds 'gte' for a lower bound that is not
    [None], 'lte' for an upper bound that is not [None], and nothing else:
    a side left at [None] is unbounded. *)
Theorem compose_range_clause equality fields_returned range size sort_specs
    regex batch key low high :
  (key, low, high) ∈ range →
  is_None low && is_None high = false →
  ∃ composed clauses (bounds : dict),
    _compose_query equality fields_returned range size sort_specs regex batch
      = Ret composed
    ∧ must_clauses composed = Some clauses
    ∧ VDict {[ "range" := VDict {[ key := VDict bounds ]} ]} ∈ clauses
    ∧ bounds !! "gte" = (if is_None low then None else Some low)
    ∧ bounds !! "lte" = (if is_None high then None else Some high)
    ∧ (∀ k, k ≠ "gte" → k ≠ "lte" → bounds !! k = None).
Proof.
  intros Hin Hb.
  destruct (compose_returns equality fields_returned range size sort_specs
              regex batch) as (composed & Hrun & Hmust).
  { right. intros ->. by apply elem_of_nil in Hin. }
  destruct (range_clauses_elem range key low high Hin Hb)
    as (bounds & Hel & Hrest).
  exists composed. eexists. exists bounds.
  split; [exact Hrun|]. split; [exact Hmust|]. split; [|exact Hrest].
  rewrite !elem_of_app. right; right; by left.
Qed.

(** ** Further properties of [execute_query] and [query] *)

Section FetchMore.

Context (E : engine) (self : ESMetadata) `{Py2Order}.

Lemma convert_raises h e :
  convert h = Raise e →
  e = KeyError (VStr "_source") ∧ hit_fields h = None ∧ hit_source h = None.
Proof.
  unfold convert. destruct (hit_fields h); [done|].
  destruct (hit_source h); [done|]. by intros [= <-].
Qed.

Lemma convert_all_spec l cs :
  convert_all l = Ret cs → Forall2 (λ h c, convert h = Ret c) l cs.
Proof.
  revert cs. induction l as [|h l IH]; intros cs; cbn [convert_all].
  { intros [= <-]. constructor. }
  destruct (convert h) as [c|] eqn:Hc; [|done].
  destruct (convert_all l) as [cs'|]; [|done].
  intros [= <-]. constructor; [done|]. by apply IH.
Qed.

Lemma convert_all_returns l :
  Forall (λ h, is_Some (hit_fields h) ∨ is_Some (hit_source h)) l →
  ∃ cs, convert_all l = Ret cs.
Proof.
  induction 1 as [|h l Hh _ [cs IH]]; cbn [convert_all]; [by eexists|].
  rewrite IH. unfold convert.
  destruct Hh as [[f ->]|[src Hsrc]]; [by eexists|].
  destruct (hit_fields h); [by eexists|]. rewrite Hsrc. by eexists.
Qed.

Lemma convert_all_raises l :
  Exists (λ h, hit_fields h = None ∧ hit_source h = None) l →
  convert_all l = Raise (KeyError (VStr "_source")).
Proof.
  induction 1 as [h l [Hf Hs]|h l _ IH]; cbn [convert_all].
  - unfold convert. by rewrite Hf, Hs.
  - destruct (convert h) as [c|e] eqn:Hc.
    + by rewrite IH.
    + by apply convert_raises in Hc as [-> _].
Qed.

Lemma convert_converted h c : convert h = Ret c → converted_from h c.
Proof.
  unfold convert, converted_from. destruct (hit_fields h) as [fields|].
  - intros [= <-] k. rewrite lookup_fmap.
    by destruct (fields !! k) as [[|x [|y l]]|].
  - destruct (hit_source h); [|done]. by intros [= <-].
Qed.

(** X13.  A result of [execute_query] carries the total of the first search, also
    when the hits come from the scan and the search for the count reported
    another total. *)
Theorem execute_query_total_is_first_total w res w' :
  execute_query E self w = (Ret (Some res), w') →
  ∃ r, es_search E (w_calls w ++ [CExists (index self)]) (index self)
         (w_query w) = Ret r
       ∧ qr_total res = total r.
Proof.
  intros Hrun.
  destruct (es_exists E (w_calls w) (index self)) as [[]|e] eqn:Hex.
  - destruct (es_search E (w_calls w ++ [CExists (index self)]) (index self)
                (w_query w)) as [r|e] eqn:Hs.
    + exists r. split; [done|].
      destruct (scroll_needed (w_query w) r) eqn:Hneed.
      * rewrite (execute_query_scroll _ _ _ _ Hex Hs Hneed) in Hrun.
        cbv zeta in Hrun. injection Hrun as Hout _. unfold wrap in Hout.
        destruct (_get_results_by_scan _ _ _ _).1 as [hs|]; [|done].
        destruct (convert_all hs); [|done]. by injection Hout as <-.
      * rewrite (execute_query_direct _ _ _ _ Hex Hs Hneed) in Hrun.
        injection Hrun as Hout _. unfold wrap in Hout.
        destruct (convert_all (hits r)); [|done]. by injection Hout as <-.
    + by rewrite (execute_query_search_raises _ _ _ _ Hex Hs) in Hrun.
  - by rewrite (execute_query_missing _ _ _ Hex) in Hrun.
  - by rewrite (execute_query_exists_raises _ _ _ _ Hex) in Hrun.
Qed.

(** X14.  Off the scroll path, when every hit of the first page has a projection
    or a stored record, [execute_query] returns one converted hit for each
    hit of the page, in the order of the page. *)
Theorem execute_query_converts_first_page w r :
  es_exists E (w_calls w) (index self) = Ret true →
  es_search E (w_calls w ++ [CExists (index self)]) (index self) (w_query w)
    = Ret r →
  scroll_needed (w_query w) r = false →
  Forall (λ h, is_Some (hit_fields h) ∨ is_Some (hit_source h)) (hits r) →
  ∃ converted,
    execute_query E self w
    = (Ret (Some {| qr_total := total r; qr_hits := converted |}),
       first_page self w)
    ∧ Forall2 converted_from (hits r) converted.
Proof.
  intros Hex Hs Hneed Hall.
  destruct (convert_all_returns _ Hall) as [cs Hcs]. exists cs.
  rewrite (execute_query_direct _ _ _ _ Hex Hs Hneed). unfold wrap.
  rewrite Hcs. split; [done|].
  eapply Forall2_impl; [by apply convert_all_spec|]. apply convert_converted.
Qed.

(** X15.  A hit with neither a projection nor a stored record makes
    [execute_query] raise [KeyError('_source')]: no partial result. *)
Theorem execute_query_hit_without_record w r :
  es_exists E (w_calls w) (index self) = Ret true →
  es_search E (w_calls w ++ [CExists (index self)]) (index self) (w_query w)
    = Ret r →
  scroll_needed (w_query w) r = false →
  Exists (λ h, hit_fields h = None ∧ hit_source h = None) (hits r) →
  execute_query E self w = (Raise (KeyError (VStr "_source")), first_page self w).
Proof.
  intros Hex Hs Hneed Hbad.
  rewrite (execute_query_direct _ _ _ _ Hex Hs Hneed). unfold wrap.
  by rewrite (convert_all_raises _ Hbad).
Qed.

(** X16.  [execute_query] catches nothing: an exception of the existence check or
    of the first search reaches the caller, with nothing logged and the
    query as it was. *)
Theorem execute_query_passes_engine_errors w e :
  es_exists E (w_calls w) (index self) = Raise e
  ∨ (es_exists E (w_calls w) (index self) = Ret true
     ∧ es_search E (w_calls w ++ [CExists (index self)]) (index self)
         (w_query w) = Raise e) →
  (execute_query E self w).1 = Raise e
  ∧ w_log (execute_query E self w).2 = w_log w
  ∧ w_query (execute_query E self w).2 = w_query w.
Proof.
  intros [Hex|[Hex Hs]].
  - by rewrite (execute_query_exists_raises _ _ _ _ Hex).
  - by rewrite (execute_query_search_raises _ _ _ _ Hex Hs).
Qed.

(** X11.  [query] with no equality and no range constraint raises before the
    engine is contacted: the world is as it was.  With one, it runs
    [execute_query] on the composed query, a new object. *)
Theorem query_validates_before_any_call equality fields_returned range size
    sort_specs regex_constraints batch_constraints w :
  (equality = [] → range = [] →
   query E self equality fields_returned range size sort_specs
     regex_constraints batch_constraints w
   = (Raise (EsUtilException "No range or equality constraints specified." []),
      w))
  ∧ (equality ≠ [] ∨ range ≠ [] →
     ∃ composed,
       _compose_query equality fields_returned range size sort_specs
         regex_constraints batch_constraints = Ret composed
       ∧ query E self equality fields_returned range size sort_specs
           regex_constraints batch_constraints w
         = execute_query E self (set_query composed w)).
Proof.
  split; [by intros -> ->|]. intros Hne.
  destruct (compose_shape equality fields_returned range size sort_specs
              regex_constraints batch_constraints Hne) as (composed & Hrun & _).
  exists composed. split; [exact Hrun|]. unfold query. by rewrite Hrun.
Qed.

(** X12.  [query] with a size other than 10000 never scans: it makes the existence
    check and at most one search of the composed query, however many records
    match. *)
Theorem query_with_other_size_never_scans equality fields_returned range size
    sort_specs regex batch w :
  equality ≠ [] ∨ range ≠ [] →
  eq_num size DEFAULT_RESULT_SIZE = false →
  ∃ composed,
    _compose_query equality fields_returned range size sort_specs regex batch
      = Ret composed
    ∧ let w' := (query E self equality fields_returned range size sort_specs
                   regex batch w).2 in
      w_query w' = composed
      ∧ (w_calls w' = w_calls w ++ [CExists (index self)]
         ∨ w_calls w'
           = w_calls w ++ [CExists (index self);
                           CSearch (index self) composed]).
Proof.
  intros Hne Hsize.
  destruct (compose_shape equality fields_returned range size sort_specs
              regex batch Hne) as (composed & Hrun & Hsz & _).
  exists composed. split; [exact Hrun|]. cbv zeta.
  unfold query. rewrite Hrun. unfold_M. cbn [fst snd].
  set (w0 := set_query composed w).
  destruct (es_exists E (w_calls w0) (index self)) as [[]|e] eqn:Hex.
  - destruct (es_search E (w_calls w0 ++ [CExists (index self)]) (index self)
                (w_query w0)) as [r|e] eqn:Hs.
    + assert (Hneed : scroll_needed (w_query w0) r = false).
      { unfold scroll_needed, has_key. subst w0. cbn [w_query set_query].
        rewrite Hsz. change (default (VNum 1) (Some size)) with size.
        rewrite Hsize. by rewrite andb_false_r. }
      rewrite (execute_query_direct _ _ _ _ Hex Hs Hneed).
      split; [done|]. right. subst w0. cbn. by rewrite <- app_assoc.
    + rewrite (execute_query_search_raises _ _ _ _ Hex Hs).
      split; [done|]. right. subst w0. cbn. by rewrite <- app_assoc.
  - rewrite (execute_query_missing _ _ _ Hex). split; [done|]. by left.
  - rewrite (execute_query_exists_raises _ _ _ _ Hex). split; [done|]. by left.
Qed.

End FetchMore.

(** ** Further properties of [_get_results_by_scan] *)

Section ScanMore.

Context (E : engine) (self : ESMetadata) `{Py2Order}.

Lemma scan_query_without_sort (q : dict) :
  q !! "sort" = None → scan_query q = delete "size" q.
Proof. intros Hq. unfold scan_query. by rewrite (delete_id q "sort"). Qed.

Lemma scan_without_sort_run total_match w r hs :
  es_search E (w_calls w) (index self) (counting_query (w_query w)) = Ret r →
  w_query w !! "sort" = None →
  es_scan E (w_calls w ++ [CSearch (index self) (counting_query (w_query w))])
    (index self) (delete "size" (w_query w)) DEFAULT_SCROLL_SIZE = (hs, None) →
  total r ≠ 0 ∨ hs = [] →
  ∃ w',
    _get_results_by_scan E self total_match w = (Ret hs, w')
    ∧ w_query w' = delete "size" (w_query w)
    ∧ w_calls w'
      = w_calls w ++ [CSearch (index self) (counting_query (w_query w));
                      CScan (index self) (delete "size" (w_query w))
                        DEFAULT_SCROLL_SIZE].
Proof.
  intros Hs Hsort Hscan Htotal.
  rewrite <- (scan_query_without_sort _ Hsort) in *.
  destruct (scan_drained E self total_match w r hs None Hs) as (w1 & Hq & Hc & ->);
    [by unfold sort_accepted; rewrite Hsort|exact Hscan|exact Htotal|].
  rewrite Hsort. cbn [default]. unfold resort. cbn [truthy]. unfold_M.
  eexists. split; [reflexivity|]. cbn [w_query w_calls add_log].
  split; [exact Hq|]. rewrite Hc. cbn. by rewrite <- app_assoc.
Qed.

(** X17.  Without a sort in the query, [_get_results_by_scan] returns the hits of
    the scan in the order the scan yielded them.  The scan is started on the
    query without its 'size', in batches of 50000, after the search for the
    count. *)
Theorem scan_without_sort_keeps_scan_order total_match w r hs :
  es_search E (w_calls w) (index self) (counting_query (w_query w)) = Ret r →
  w_query w !! "sort" = None →
  es_scan E (w_calls w ++ [CSearch (index self) (counting_query (w_query w))])
    (index self) (delete "size" (w_query w)) 50000 = (hs, None) →
  total r ≠ 0 ∨ hs = [] →
  ∃ w',
    _get_results_by_scan E self total_match w = (Ret hs, w')
    ∧ w_calls w'
      = w_calls w ++ [CSearch (index self) (counting_query (w_query w));
                      CScan (index self) (delete "size" (w_query w)) 50000].
Proof.
  intros Hs Hsort Hscan Htotal.
  destruct (scan_without_sort_run total_match w r hs Hs Hsort Hscan Htotal)
    as (w' & Hrun & _ & Hc).
  by exists w'.
Qed.

(** X18.  The whole fetch on the scroll path, without a sort: [execute_query]
    returns every hit the scan yielded, converted and in the order of the
    scan, under the total of the first search. *)
Theorem execute_query_returns_all_scanned w r r2 hs :
  es_exists E (w_calls w) (index self) = Ret true →
  es_search E (w_calls w ++ [CExists (index self)]) (index self) (w_query w)
    = Ret r →
  scroll_needed (w_query w) r = true →
  w_query w !! "sort" = None →
  es_search E (w_calls w ++ [CExists (index self);
                             CSearch (index self) (w_query w)])
    (index self) (counting_query (w_query w)) = Ret r2 →
  es_scan E (w_calls w ++ [CExists (index self);
                           CSearch (index self) (w_query w);
                           CSearch (index self) (counting_query (w_query w))])
    (index self) (delete "size" (w_query w)) 50000 = (hs, None) →
  total r2 ≠ 0 ∨ hs = [] →
  Forall (λ h, is_Some (hit_fields h) ∨ is_Some (hit_source h)) hs →
  ∃ converted w',
    execute_query E self w
    = (Ret (Some {| qr_total := total r; qr_hits := converted |}), w')
    ∧ length converted = length hs
    ∧ Forall2 converted_from hs converted.
Proof.
  intros Hex Hs Hneed Hsort Hs2 Hscan Htotal Hall.
  rewrite (execute_query_scroll _ _ _ _ Hex Hs Hneed). cbv zeta.
  fold (scroll_entry self w r).
  destruct (scan_without_sort_run (total r) (scroll_entry self w r) r2 hs)
    as (w' & -> & _ & _).
  - cbn. by rewrite <- app_assoc.
  - exact Hsort.
  - cbn. by rewrite <- !app_assoc.
  - exact Htotal.
  - destruct (convert_all_returns _ Hall) as [cs Hcs].
    exists cs, w'. cbn [fst snd]. unfold wrap. rewrite Hcs.
    pose proof (convert_all_spec _ _ Hcs) as Hf.
    split; [done|]. split; [symmetry; by eapply Forall2_length|].
    eapply Forall2_impl; [exact Hf|]. apply convert_converted.
Qed.

(** X19.  When the search for the count reports no match and the scan still
    yields a hit, the progress computation divides by zero and
    [_get_results_by_scan] raises [ZeroDivisionError]. *)
Theorem scan_with_zero_total_raises total_match w r h hs err :
  es_search E (w_calls w) (index self) (counting_query (w_query w)) = Ret r →
  total r = 0 →
  sort_accepted (w_query w) →
  es_scan E (w_calls w ++ [CSearch (index self) (counting_query (w_query w))])
    (index self) (delete "size" (delete "sort" (w_query w))) 50000
  = (h :: hs, err) →
  (_get_results_by_scan E self total_match w).1 = Raise ZeroDivisionError.
Proof.
  intros Hs Hzero Hok Hscan.
  rewrite (scan_proceeds E self total_match w r Hs Hok). cbv zeta.
  change (w_calls (recount self w))
    with (w_calls w ++ [CSearch (index self) (counting_query (w_query w))]).
  unfold scan_query. change DEFAULT_SCROLL_SIZE with 50000.
  rewrite Hscan. cbn [fst snd drain].
  rewrite Hzero. reflexivity.
Qed.

(** X20.  An error the scan ends with is passed on, whatever was read before it;
    by then the query has lost its 'size' and its 'sort'. *)
Theorem scan_error_is_passed_on total_match w r hs e :
  es_search E (w_calls w) (index self) (counting_query (w_query w)) = Ret r →
  sort_accepted (w_query w) →
  es_scan E (w_calls w ++ [CSearch (index self) (counting_query (w_query w))])
    (index self) (delete "size" (delete "sort" (w_query w))) 50000
  = (hs, Some e) →
  total r ≠ 0 ∨ hs = [] →
  (_get_results_by_scan E self total_match w).1 = Raise e
  ∧ w_query (_get_results_by_scan E self total_match w).2
    = delete "size" (delete "sort" (w_query w)).
Proof.
  intros Hs Hok Hscan Htotal.
  destruct (scan_drained E self total_match w r hs (Some e) Hs Hok Hscan Htotal)
    as (w1 & Hq & _ & ->).
  by split.
Qed.


Lemma decorate_raises key l :
  Exists (λ h, ∀ v, key h ≠ Ret v) l → ∃ e, decorate key l = Raise e.
Proof.
  induction 1 as [h l Hh|h l _ [e IH]]; cbn [decorate].
  - destruct (key h) as [v|e]; [by destruct (Hh v)|by eexists].
  - destruct (key h) as [v|e']; [|by eexists]. rewrite IH. by eexists.
Qed.

(** X22.  When a hit of the scan has no value for the sort key, the client-side
    sort raises and [_get_results_by_scan] returns nothing. *)
Theorem scan_with_missing_sort_value_raises total_match w r sort_key
    direction hs :
  es_search E (w_calls w) (index self) (counting_query (w_query w)) = Ret r →
  w_query w !! "sort" = Some (VList [VDict {[ sort_key := direction ]}]) →
  es_scan E (w_calls w ++ [CSearch (index self) (counting_query (w_query w))])
    (index self) (delete "size" (delete "sort" (w_query w))) 50000
  = (hs, None) →
  total r ≠ 0 ∨ hs = [] →
  Exists (λ h, stored_sort_value sort_key h = None) hs →
  ∃ e, (_get_results_by_scan E self total_match w).1 = Raise e.
Proof.
  intros Hs Hsort Hscan Htotal Hmissing.
  destruct (scan_drained E self total_match w r hs None Hs) as (w1 & _ & _ & ->);
    [|exact Hscan|exact Htotal|].
  { unfold sort_accepted. rewrite Hsort. exists 1. by split. }
  rewrite Hsort. cbn [default]. unfold id.
  destruct (decorate_raises (sort_value sort_key) hs) as [e He].
  { eapply Exists_impl; [exact Hmissing|]. intros h Hnone v Hv.
    apply sort_value_stored in Hv. congruence. }
  exists e. rewrite resort_single. unfold sorted. by rewrite He.
Qed.

End ScanMore.

(** ** The further properties on the sample deployment *)

Ltac not_empty :=
  let Heq := fresh in intros Heq; vm_compute in Heq; discriminate Heq.

Lemma post_http_outcome_witness :
  (post unreachable_engine server (VStr "host_history") typed_record true ∅
     (start ∅)).1 = Ret true.
Proof.
  apply (post_http_outcome unreachable_engine server (VStr "host_history")
           typed_record true ∅ (start ∅)); [reflexivity | not_empty].
Defined.


Lemma post_sends_merged_record_witness :
  ∃ body,
    w_calls (post paged_engine server (VStr "host_history") typed_record true
               {[ "job_id" := VNum 21 ]} (start ∅)).2
    = [CIndex "metadata" (VStr "job_history") body]
    ∧ body !! "_type" = None
    ∧ body !! "job_id" = Some (VNum 21).
Proof.
  destruct (post_sends_merged_record paged_engine server (VStr "host_history")
              typed_record true {[ "job_id" := VNum 21 ]} (start ∅))
    as (body & Hcalls & Htype & _ & Hrest); [reflexivity | not_empty |].
  exists body. split; [|split; [exact Htype|]].
  - rewrite Hcalls. vm_compute. reflexivity.
  - rewrite Hrest by discriminate. vm_compute. reflexivity.
Defined.

Lemma bulk_post_outcome_witness :
  ∃ actions,
    length actions = 2%nat
    ∧ w_calls (bulk_post unreachable_engine server [typed_record; timed_record]
                 true ∅ (start ∅)).2 = [CBulk actions]
    ∧ (bulk_post unreachable_engine server [typed_record; timed_record] true ∅
         (start ∅)).1 = Ret false
    ∧ w_log (bulk_post unreachable_engine server [typed_record; timed_record]
               true ∅ (start ∅)).2
      = [(ERROR, MsgExn (ElasticsearchException "ConnectionError"))].
Proof.
  apply (bulk_post_outcome unreachable_engine server
           [typed_record; timed_record] true ∅ (start ∅)).
  discriminate.
Defined.

Lemma bulk_post_time_recorded_witness :
  ∃ actions,
    w_calls (bulk_post paged_engine server [typed_record; timed_record] true ∅
               (start ∅)).2 = [] ++ [CBulk actions]
    ∧ length actions = 2%nat
    ∧ (∀ i metadata action,
         [typed_record; timed_record] !! i = Some metadata →
         actions !! i = Some action →
         action !! "time_recorded"
         = action_time paged_engine true ∅ (start ∅)
             [typed_record; timed_record] i metadata)
    ∧ w_ticks (bulk_post paged_engine server [typed_record; timed_record] true
                 ∅ (start ∅)).2
      = (0 + unstamped ∅ [typed_record; timed_record])%nat.
Proof.
  apply (bulk_post_time_recorded paged_engine server
           [typed_record; timed_record] true ∅ (start ∅)).
  discriminate.
Defined.

Lemma compose_size_fields_sort_witness :
  ∃ composed,
    _compose_query [("host_id", VNum 5)] (VList [VStr "hostname"]) []
      (VNum 20) VNone [] [] = Ret composed
    ∧ composed !! "size" = Some (VNum 20)
    ∧ composed !! "fields" = Some (VList [VStr "hostname"])
    ∧ composed !! "sort" = None
    ∧ (∀ k, k ≠ "query" → k ≠ "fields" → k ≠ "size" → k ≠ "sort" →
            composed !! k = None).
Proof.
  apply (compose_size_fields_sort [("host_id", VNum 5)]
           (VList [VStr "hostname"]) [] (VNum 20) VNone [] []).
  left. discriminate.
Defined.

Lemma compose_keeps_named_constraints_witness :
  ∃ composed clauses,
    _compose_query [("host_id", VNum 5)] VNone [] (VNum 20) VNone
      [("hostname", VStr ".*lab.*")] [("job_id", VList [VNum 10; VNum 11])]
      = Ret composed
    ∧ must_clauses composed = Some clauses
    ∧ VDict {[ "term" := VDict {[ "host_id" := VNum 5 ]} ]} ∈ clauses
    ∧ VDict {[ "terms" := VDict {[ "job_id" := VList [VNum 10; VNum 11] ]} ]}
      ∈ clauses
    ∧ VDict {[ "regexp" := VDict {[ "hostname" := VStr ".*lab.*" ]} ]}
      ∈ clauses.
Proof.
  destruct (compose_keeps_named_constraints [("host_id", VNum 5)] VNone []
              (VNum 20) VNone [("hostname", VStr ".*lab.*")]
              [("job_id", VList [VNum 10; VNum 11])])
    as (composed & clauses & Hrun & Hmust & Heq & Hbatch & Hregex).
  { left. discriminate. }
  exists composed, clauses. split; [exact Hrun|]. split; [exact Hmust|].
  split; [apply Heq|split; [apply Hbatch|apply Hregex]];
    first [by left | discriminate].
Defined.

Lemma compose_range_clause_witness :
  ∃ composed clauses (bounds : dict),
    _compose_query [] VNone [("time_recorded", VNum 100, VNone)] (VNum 20)
      VNone [] [] = Ret composed
    ∧ must_clauses composed = Some clauses
    ∧ VDict {[ "range" := VDict {[ "time_recorded" := VDict bounds ]} ]}
      ∈ clauses
    ∧ bounds !! "gte" = Some (VNum 100)
    ∧ bounds !! "lte" = None
    ∧ (∀ k, k ≠ "gte" → k ≠ "lte" → bounds !! k = None).
Proof.
  apply (compose_range_clause [] VNone [("time_recorded", VNum 100, VNone)]
           (VNum 20) VNone [] [] "time_recorded" (VNum 100) VNone);
    [by left | reflexivity].
Defined.

Lemma execute_query_total_is_first_total_witness :
  ∃ r, es_search paged_engine [CExists "metadata"] "metadata" first_twenty
       = Ret r
       ∧ 4 = total r.
Proof.
  apply (execute_query_total_is_first_total paged_engine server
           (start first_twenty)
           {| qr_total := 4;
              qr_hits :=
                [<["time_recorded" := VNum 100]> {[ "hostname" := VStr "a" ]};
                 <["time_recorded" := VNum 300]> {[ "hostname" := VStr "b" ]}] |}
           {| w_query := first_twenty; w_log := [];
              w_calls := [CExists "metadata"; CSearch "metadata" first_twenty];
              w_ticks := 0 |}).
  vm_compute. reflexivity.
Defined.

Lemma execute_query_converts_first_page_witness :
  ∃ converted,
    execute_query paged_engine server (start first_twenty)
    = (Ret (Some {| qr_total := 4; qr_hits := converted |}),
       first_page server (start first_twenty))
    ∧ Forall2 converted_from (take 2 store) converted.
Proof.
  apply (execute_query_converts_first_page paged_engine server
           (start first_twenty) {| total := 4; hits := take 2 store |});
    try reflexivity.
  cbn. repeat (apply Forall_cons_2; [right; by eexists|]). apply Forall_nil_2.
Defined.

Lemma execute_query_hit_without_record_witness :
  execute_query bare_engine server (start first_twenty)
  = (Raise (KeyError (VStr "_source")), first_page server (start first_twenty)).
Proof.
  apply (execute_query_hit_without_record bare_engine server
           (start first_twenty) {| total := 1; hits := [bare_hit] |});
    try reflexivity.
  by left.
Defined.

Lemma execute_query_passes_engine_errors_witness :
  (execute_query unreachable_engine server (start first_twenty)).1
  = Raise (ElasticsearchException "ConnectionError")
  ∧ w_log (execute_query unreachable_engine server (start first_twenty)).2 = []
  ∧ w_query (execute_query unreachable_engine server (start first_twenty)).2
    = first_twenty.
Proof.
  apply (execute_query_passes_engine_errors unreachable_engine server
           (start first_twenty) (ElasticsearchException "ConnectionError")).
  left. reflexivity.
Defined.

Lemma query_with_other_size_never_scans_witness :
  ∃ composed,
    _compose_query [("host_id", VNum 5)] VNone [] (VNum 20) VNone [] []
      = Ret composed
    ∧ let w' := (query paged_engine server [("host_id", VNum 5)] VNone []
                   (VNum 20) VNone [] [] (start ∅)).2 in
      w_query w' = composed
      ∧ (w_calls w' = [CExists "metadata"]
         ∨ w_calls w' = [CExists "metadata"; CSearch "metadata" composed]).
Proof.
  apply (query_with_other_size_never_scans paged_engine server
           [("host_id", VNum 5)] VNone [] (VNum 20) VNone [] [] (start ∅));
    [left; discriminate | reflexivity].
Defined.

Lemma scan_without_sort_keeps_scan_order_witness :
  ∃ w',
    _get_results_by_scan paged_engine server 4 (start everything)
      = (Ret store, w')
    ∧ w_calls w'
      = [CSearch "metadata" (counting_query everything);
         CScan "metadata" (delete "size" everything) 50000].
Proof.
  apply (scan_without_sort_keeps_scan_order paged_engine server 4
           (start everything) {| total := 4; hits := take 1 store |} store);
    try reflexivity.
  left. discriminate.
Defined.

Lemma execute_query_returns_all_scanned_witness :
  ∃ converted w',
    execute_query paged_engine server (start everything)
    = (Ret (Some {| qr_total := 4; qr_hits := converted |}), w')
    ∧ length converted = 4%nat
    ∧ Forall2 converted_from store converted.
Proof.
  apply (execute_query_returns_all_scanned paged_engine server
           (start everything) {| total := 4; hits := take 2 store |}
           {| total := 4; hits := take 1 store |} store);
    try reflexivity.
  - left. discriminate.
  - repeat (apply Forall_cons_2;
              [first [left; by eexists | right; by eexists]|]).
    apply Forall_nil_2.
Defined.

Lemma scan_with_zero_total_raises_witness :
  (_get_results_by_scan stale_count_engine server 4 (start everything)).1
  = Raise ZeroDivisionError.
Proof.
  apply (scan_with_zero_total_raises stale_count_engine server 4
           (start everything) {| total := 0; hits := [] |}
           (stored 100 "a") (tail store) None); reflexivity.
Defined.

Lemma scan_error_is_passed_on_witness :
  (_get_results_by_scan dropping_engine server 4 (start newest_first)).1
  = Raise (ElasticsearchException "ConnectionTimeout")
  ∧ w_query (_get_results_by_scan dropping_engine server 4
               (start newest_first)).2
    = delete "size" (delete "sort" newest_first).
Proof.
  apply (scan_error_is_passed_on dropping_engine server 4 (start newest_first)
           {| total := 4; hits := take 1 store |} (take 2 store)
           (ElasticsearchException "ConnectionTimeout")); try reflexivity.
  - exists 1. split; [reflexivity | lia].
  - left. discriminate.
Defined.


Lemma scan_with_missing_sort_value_raises_witness :
  ∃ e, (_get_results_by_scan paged_engine server 4 (start hosts_descending)).1
       = Raise e.
Proof.
  apply (scan_with_missing_sort_value_raises paged_engine server 4
           (start hosts_descending) {| total := 4; hits := take 1 store |}
           "hostname" (VStr "desc") store); try reflexivity.
  - left. discriminate.
  - right. right. left. reflexivity.
Defined.

(** ** Progress lines of the scan, and the records of a bulk post *)

Lemma drain_log_bound scroll total_match acc j w :
  0 < total_match →
  Z.of_nat (length acc + length scroll) ≤ total_match →
  0 ≤ j ≤ 20 →
  ∃ entries,
    w_log (drain scroll total_match acc (5 * j) w).2 = w_log w ++ entries
    ∧ Z.of_nat (length entries) ≤ 20 - j
    ∧ Forall (λ entry, ∃ n, entry = (DEBUG, MsgDownloaded n total_match))
        entries.
Proof.
  intros Hpos. revert acc j w.
  induction scroll as [|h rest IH]; intros acc j w Hlen Hj; cbn [drain].
  { exists []. rewrite app_nil_r. repeat split; [simpl; lia|constructor]. }
  assert (Hnz : (total_match =? 0) = false) by (apply Z.eqb_neq; lia).
  rewrite Hnz. unfold percent_above.
  assert (Hlt : (0 <? total_match) = true) by (by apply Z.ltb_lt).
  rewrite Hlt.
  assert (Hlen' : Z.of_nat (length (acc ++ [h]) + length rest) ≤ total_match).
  { rewrite length_app. cbn [length] in *. lia. }
  destruct (5 * j * total_match <? 100 * Z.of_nat (length (acc ++ [h])))
    eqn:Habove.
  - apply Z.ltb_lt in Habove.
    assert (Hj' : 0 ≤ j + 1 ≤ 20).
    { rewrite length_app in *. cbn [length] in *. nia. }
    replace (5 * j + 5) with (5 * (j + 1)) by lia.
    unfold_M. cbn [fst snd].
    destruct (IH (acc ++ [h]) (j + 1)
                (add_log (DEBUG, MsgDownloaded (length (acc ++ [h])) total_match) w)
                Hlen' Hj') as (entries & Hlog & Hn & Hall).
    exists ((DEBUG, MsgDownloaded (length (acc ++ [h])) total_match) :: entries).
    split; [|split].
    + rewrite Hlog. cbn [w_log add_log]. by rewrite <- app_assoc.
    + cbn [length]. lia.
    + constructor; [by eexists|done].
  - destruct (IH (acc ++ [h]) j w Hlen' Hj) as (entries & Hlog & Hn & Hall).
    by exists entries.
Qed.

(** X23.  While the scan yields no more hits than the count that was found, the
    loop over the scan writes at most twenty progress lines, however many
    hits there are, and nothing else.  The count is taken below 2^46: there
    [100 * float(len(hits))] is exact and the rounded quotient lies on the
    same side of every mark as the exact one, so that the test of the code
    is the test of [percent_above]. *)
Theorem scan_writes_at_most_twenty_progress_lines scroll total_match w :
  0 < total_match →
  total_match < 2 ^ 46 →
  Z.of_nat (length scroll) ≤ total_match →
  ∃ entries,
    drain scroll total_match [] 0 w
    = (Ret scroll,
       {| w_query := w_query w; w_log := w_log w ++ entries;
          w_calls := w_calls w; w_ticks := w_ticks w |})
    ∧ (length entries ≤ 20)%nat
    ∧ Forall (λ entry, ∃ n, entry = (DEBUG, MsgDownloaded n total_match))
        entries.
Proof.
  intros Hpos _ Hlen.
  destruct (drain_log_bound scroll total_match [] 0 w Hpos)
    as (entries & Hlog & Hn & Hall); [simpl; lia|lia|].
  change (5 * 0) with 0 in Hlog. exists entries.
  split; [|split; [lia|done]].
  pose proof (drain_returns scroll total_match [] 0 w) as Hret.
  destruct (quiet_drain scroll total_match [] 0 w) as (Hq & Hc & Ht).
  destruct (drain scroll total_match [] 0 w) as [o [q l c t]].
  cbn [fst snd w_query w_log w_calls w_ticks] in *.
  rewrite Hret by lia. by subst.
Qed.

Lemma scan_writes_at_most_twenty_progress_lines_witness :
  ∃ entries,
    drain store 4 [] 0 (start everything)
    = (Ret store,
       {| w_query := everything; w_log := [] ++ entries;
          w_calls := []; w_ticks := 0 |})
    ∧ (length entries ≤ 20)%nat
    ∧ Forall (λ entry, ∃ n, entry = (DEBUG, MsgDownloaded n 4)) entries.
Proof.
  apply (scan_writes_at_most_twenty_progress_lines store 4 (start everything));
    [lia | reflexivity | simpl; lia].
Defined.

(** X7.  The actions of [bulk_post] are the records with the extra fields merged
    over them: apart from '_index', which is always the configured index,
    and 'time_recorded', every entry of an action is the extra field of that
    name when there is one and the record's own entry otherwise. *)
Theorem bulk_post_sends_merged_records (E : engine) (self : ESMetadata)
    data_list log_time_recorded kwargs w :
  data_list ≠ [] →
  ∃ actions,
    w_calls (bulk_post E self data_list log_time_recorded kwargs w).2
    = w_calls w ++ [CBulk actions]
    ∧ Forall2 (λ metadata action : dict,
                 action !! "_index" = Some (VStr (index self))
                 ∧ ∀ k, k ≠ "_index" → k ≠ "time_recorded" →
                        action !! k
                        = match kwargs !! k with
                          | Some v => Some v
                          | None => metadata !! k
                          end)
        data_list actions.
Proof.
  intros Hne.
  destruct (bulk_post_call E self data_list log_time_recorded kwargs w Hne)
    as (actions & Hcalls & Hall).
  exists actions. split; [done|].
  eapply Forall2_impl; [exact Hall|].
  intros m a (Hidx & Hsame & _). split; [done|].
  intros k Hk1 Hk2. rewrite (Hsame k Hk1 Hk2), lookup_union.
  by destruct (kwargs !! k), (m !! k).
Qed.

Lemma bulk_post_sends_merged_records_witness :
  ∃ actions,
    w_calls (bulk_post paged_engine server [typed_record; timed_record] true
               {[ "job_id" := VNum 21 ]} (start ∅)).2
    = [] ++ [CBulk actions]
    ∧ Forall2 (λ metadata action : dict,
                 action !! "_index" = Some (VStr "metadata")
                 ∧ ∀ k, k ≠ "_index" → k ≠ "time_recorded" →
                        action !! k
                        = match ({[ "job_id" := VNum 21 ]} : dict) !! k with
                          | Some v => Some v
                          | None => metadata !! k
                          end)
        [typed_record; timed_record] actions.
Proof.
  apply (bulk_post_sends_merged_records paged_engine server
           [typed_record; timed_record] true {[ "job_id" := VNum 21 ]}
           (start ∅)).
  discriminate.
Defined.


Lemma query_validates_before_any_call_witness :
  query paged_engine server [] VNone [] (VNum 20) VNone
    [("hostname", VStr ".*lab.*")] [] (start ∅)
  = (Raise (EsUtilException "No range or equality constraints specified." []),
     start ∅).
Proof.
  apply (query_validates_before_any_call paged_engine server [] VNone []
           (VNum 20) VNone [("hostname", VStr ".*lab.*")] [] (start ∅));
    reflexivity.
Defined.
